(** * onnx2nnet: extraction of a feed-forward ReLU network from an ONNX graph

    A shallow embedding of [converters/onnx2nnet.py] and the properties of
    its graph walk.  The Python function is one body; it is split here
    into the pieces its comments delimit (name defaulting, the node loop,
    the final check-and-write), each annotated with the source lines it
    transcribes.  Python exceptions carry the source line that raises
    them, printed lines are kept as structured messages, and the call to
    the external writer is recorded in the world. *)

From Stdlib Require Import String List ZArith Lia Bool Arith.
From Stdlib Require Import Floats.
Import ListNotations.

Local Open Scope string_scope.
Local Open Scope list_scope.
Local Open Scope nat_scope.

(** ** Arrays *)

Module Np.

(** A numpy array of floats: its shape and its elements in row-major
    order.  [numpy_helper.to_array] yields one per initializer. *)
Record ndarray : Type := mk_ndarray {
  shape : list nat;
  data  : list float
}.

(** Multi-indices, least significant axis first, against the reversed
    shape. *)
Fixpoint unravel (rshape : list nat) (k : nat) : list nat :=
  match rshape with
  | [] => []
  | d :: ds => (k mod d) :: unravel ds (k / d)
  end.

Fixpoint ravel (rshape ridx : list nat) : nat :=
  match rshape, ridx with
  | d :: ds, i :: js => i + d * ravel ds js
  | _, _ => 0
  end.

(** [a.transpose()] / [np.transpose(a)]: the axes are reversed.  The
    element at flat position [k] of the result has the multi-index of
    [k] in the reversed shape; read backwards it is a multi-index of
    [a]. *)
Definition transpose (a : ndarray) : ndarray :=
  {| shape := rev (shape a);
     data  := map (fun k => nth (ravel (rev (shape a))
                                       (rev (unravel (shape a) k)))
                                (data a) 0%float)
                  (seq 0 (length (data a))) |}.

(** [a *= c] on a float array. *)
Definition scale (c : float) (a : ndarray) : ndarray :=
  {| shape := shape a;
     data  := map (fun x => PrimFloat.mul x c) (data a) |}.

(** [np.zeros(n)]. *)
Definition zeros (n : nat) : ndarray :=
  {| shape := [n]; data := repeat 0%float n |}.

(** [np.finfo(np.float32).max] and [.min]. *)
Definition float32_max : float := 0x1.fffffep+127%float.
Definition float32_min : float := (- 0x1.fffffep+127)%float.

(** Numerically zero ([x == 0.0] in Python; holds of [-0.0] too). *)
Definition all_zero (a : ndarray) : bool :=
  forallb (fun x => PrimFloat.eqb x 0%float) (data a).

End Np.
Import Np.

(** ** The ONNX graph, as far as the converter reads it *)

Record AttributeProto : Type := mk_attr {
  attr_name : string;
  attr_f    : float;
  attr_i    : Z
}.

Record NodeProto : Type := mk_node {
  op_type   : string;
  input     : list string;
  output    : list string;
  attribute : list AttributeProto
}.

Record TensorProto : Type := mk_tensor {
  tensor_name : string;
  to_array    : ndarray
}.

Record ValueInfoProto : Type := mk_value_info {
  value_name : string
}.

Record GraphProto : Type := mk_graph {
  node        : list NodeProto;
  initializer : list TensorProto;
  graph_input  : list ValueInfoProto;
  graph_output : list ValueInfoProto
}.

(** ** Effects: exceptions, printing, the writer *)

(** A Python exception with the source line that raises it. *)
Inductive exn : Type :=
| AssertionError (line : nat)
| IndexError (line : nat).

(** The lines the function prints. *)
Inductive message : Type :=
| NotSupported (op : string)                      (* line 125 *)
| TakingTranspose                                 (* line 136 *)
| ConvertedModel (onnxFile : string)              (* line 151 *)
| ToModel (nnetFile : string)                     (* line 152 *)
| ShowInputMins (l : list float)                  (* line 154 *)
| ShowInputMaxes (l : list float)                 (* line 155 *)
| NameMismatch (outputName inputName : string)    (* line 163 *)
| NoWeights (n : nat)                             (* line 165 *)
| LenMismatch (nw nb : nat)                       (* line 167 *)
| CouldNotWrite.                                  (* line 168 *)

(** The arguments of one call [writeNNet(weights, biases, inputMins,
    inputMaxes, means, ranges, nnetFile)]. *)
Record nnet_call : Type := mk_call {
  call_weights    : list ndarray;
  call_biases     : list ndarray;
  call_inputMins  : list float;
  call_inputMaxes : list float;
  call_means      : list float;
  call_ranges     : list float;
  call_file       : string
}.

Record world : Type := mk_world {
  stdout  : list message;
  written : list nnet_call
}.

Inductive result (A : Type) : Type :=
| Ok (a : A)
| Raise (e : exn).
Arguments Ok {A} a.
Arguments Raise {A} e.

Definition M (A : Type) : Type := world -> result A * world.

Definition ret {A} (a : A) : M A := fun w => (Ok a, w).

Definition bind {A B} (c : M A) (k : A -> M B) : M B :=
  fun w => match c w with
           | (Ok a, w') => k a w'
           | (Raise e, w') => (Raise e, w')
           end.

Definition raise {A} (e : exn) : M A := fun w => (Raise e, w).

Declare Scope py_scope.
Delimit Scope py_scope with py.
Notation "x <- c ;; k" := (bind c (fun x => k))
  (at level 61, c at next level, right associativity) : py_scope.
Notation "c ;; k" := (bind c (fun _ => k))
  (at level 61, right associativity) : py_scope.
Local Open Scope py_scope.

Definition print (m : message) : M unit :=
  fun w => (Ok tt, {| stdout := stdout w ++ [m]; written := written w |}).

(** Modelled from the spec: [writeNNet] of [NNet/utils/writeNNet.py] is
    not among the sources; by the output contract it receives the layer
    lists, the bounds, the normalization constants and the path.  The
    call is recorded, its file format is not modelled. *)
Definition writeNNet (weights biases : list ndarray)
    (inputMins inputMaxes means ranges : list float) (nnetFile : string)
    : M unit :=
  fun w => (Ok tt,
            {| stdout := stdout w;
               written := written w ++
                 [mk_call weights biases inputMins inputMaxes means ranges
                          nnetFile] |}).

(** [assert b] at a given line. *)
Definition py_assert (b : bool) (line : nat) : M unit :=
  if b then ret tt else raise (AssertionError line).

(** [l[i]] at a given line. *)
Definition item {A} (l : list A) (i : nat) (line : nat) : M A :=
  match nth_error l i with
  | Some a => ret a
  | None => raise (IndexError line)
  end.

(** [x in l] on strings. *)
Definition str_in (x : string) (l : list string) : bool :=
  existsb (String.eqb x) l.

(** ** The converter *)

(** Lines 28-33: an omitted (empty) tensor name is the name of the only
    declared graph input, respectively output. *)
Definition default_name (name : string) (declared : list ValueInfoProto)
    (line : nat) : M string :=
  if (name =? "")%string then
    py_assert (length declared =? 1) line ;;
    v <- item declared 0 (S line) ;;
    ret (value_name v)
  else ret name.

(** The variables the node loop updates. *)
Record scan_state : Type := mk_state {
  inputName : string;          (* the cursor *)
  weights   : list ndarray;
  biases    : list ndarray
}.

(** What one iteration of the loop body ends in. *)
Inductive flow : Type :=
| Continue (st : scan_state)
| Break (st : scan_state).

(** [[to_array(inits) for inits in graph.initializer if inits.name==name]] *)
Definition arrays_named (graph : GraphProto) (name : string) : list ndarray :=
  map to_array
      (filter (fun inits => (tensor_name inits =? name)%string)
              (initializer graph)).

(** Lines 85-97. *)
Record gemm_attrs : Type := mk_gemm_attrs {
  alpha : float;
  beta  : float;
  transA : bool;
  transB : bool
}.

Definition py_bool (i : Z) : bool := negb (i =? 0)%Z.

Definition read_attr (acc : gemm_attrs) (attr : AttributeProto) : gemm_attrs :=
  if (attr_name attr =? "alpha")%string then
    mk_gemm_attrs (attr_f attr) (beta acc) (transA acc) (transB acc)
  else if (attr_name attr =? "beta")%string then
    mk_gemm_attrs (alpha acc) (attr_f attr) (transA acc) (transB acc)
  else if (attr_name attr =? "transA")%string then
    mk_gemm_attrs (alpha acc) (beta acc) (py_bool (attr_i attr)) (transB acc)
  else if (attr_name attr =? "transB")%string then
    mk_gemm_attrs (alpha acc) (beta acc) (transA acc) (py_bool (attr_i attr))
  else acc.

Definition read_attrs (attrs : list AttributeProto) : gemm_attrs :=
  fold_left read_attr attrs (mk_gemm_attrs 1%float 1%float false false).

(** Lines 130-132. *)
Definition check_output (outputName : string) (st : scan_state) : flow :=
  if (outputName =? inputName st)%string then Break st else Continue st.

(** Lines 55-59 and 70-74: the index of the operand that is not the
    cursor. *)
Definition other_index (nd : NodeProto) (cursor : string) : nat :=
  match input nd with
  | first :: _ => if (first =? cursor)%string then 1 else 0
  | [] => 0
  end.

(** Lines 46-132: the loop body. *)
Definition visit (graph : GraphProto) (outputName : string)
    (st : scan_state) (nd : NodeProto) : M flow :=
  if str_in (inputName st) (input nd) then
    if (op_type nd =? "MatMul")%string then
      py_assert (length (input nd) =? 2) 53 ;;
      weightName <- item (input nd) (other_index nd (inputName st)) 59 ;;
      let weights' := weights st ++ arrays_named graph weightName in
      out <- item (output nd) 0 65 ;;
      ret (check_output outputName (mk_state out weights' (biases st)))
    else if (op_type nd =? "Add")%string then
      py_assert (length (input nd) =? 2) 68 ;;
      biasName <- item (input nd) (other_index nd (inputName st)) 74 ;;
      let biases' := biases st ++ arrays_named graph biasName in
      out <- item (output nd) 0 80 ;;
      ret (check_output outputName (mk_state out (weights st) biases'))
    else if (op_type nd =? "Gemm")%string then
      py_assert (length (input nd) =? 3) 83 ;;
      let a := read_attrs (attribute nd) in
      weightName <- item (input nd) 1 100 ;;
      biasName <- item (input nd) 2 101 ;;
      weight <- item (arrays_named graph weightName) 0 103 ;;
      let weight := if transA a then transpose weight else weight in
      let weight := scale (alpha a) weight in
      let weights' := weights st ++ [weight] in
      bias <- (if str_in biasName (map tensor_name (initializer graph))
               then item (arrays_named graph biasName) 0 110
               else n <- item (shape weight) 0 112 ;; ret (zeros n)) ;;
      let bias := scale (beta a) bias in
      let biases' := biases st ++ [bias] in
      out <- item (output nd) 0 117 ;;
      ret (check_output outputName (mk_state out weights' biases'))
    else if (op_type nd =? "Relu")%string then
      out <- item (output nd) 0 121 ;;
      ret (check_output outputName
             (mk_state out (weights st) (biases st)))
    else
      print (NotSupported (op_type nd)) ;;
      ret (Break (mk_state (inputName st) [] []))
  else ret (Continue st).

(** Line 43: [for node in graph.node], left by [break]. *)
Fixpoint scan (graph : GraphProto) (outputName : string)
    (nodes : list NodeProto) (st : scan_state) : M scan_state :=
  match nodes with
  | [] => ret st
  | nd :: rest =>
      f <- visit graph outputName st nd ;;
      match f with
      | Continue st' => scan graph outputName rest st'
      | Break st' => ret st'
      end
  end.

(** The optional keyword arguments of the caller. *)
Record options : Type := mk_options {
  inputMins  : option (list float);
  inputMaxes : option (list float);
  means      : option (list float);
  ranges     : option (list float)
}.

Definition no_options : options := mk_options None None None None.

Definition or_default {A} (o : option A) (d : A) : A :=
  match o with Some a => a | None => d end.

(** Line 140. *)
Definition extracted (outputName : string) (st : scan_state) : bool :=
  (outputName =? inputName st)%string
  && (0 <? length (weights st))
  && (length (weights st) =? length (biases st)).

(** Lines 162-168. *)
Definition report (outputName : string) (st : scan_state) : M unit :=
  (if negb (outputName =? inputName st)%string
   then print (NameMismatch outputName (inputName st)) else ret tt) ;;
  (if negb (0 <? length (weights st))
   then print (NoWeights (length (weights st))) else ret tt) ;;
  (if negb (length (weights st) =? length (biases st))
   then print (LenMismatch (length (weights st)) (length (biases st)))
   else ret tt) ;;
  print CouldNotWrite.

(** Lines 139-168. *)
Definition check_and_write (onnxFile nnetFile outputName : string)
    (opts : options) (st : scan_state) : M unit :=
  if extracted outputName st then
    w0 <- item (weights st) 0 142 ;;
    inputSize <- item (shape w0) 0 142 ;;
    let mins := or_default (inputMins opts) (repeat float32_min inputSize) in
    let maxes := or_default (inputMaxes opts) (repeat float32_max inputSize) in
    let mu := or_default (means opts) (repeat 0%float (inputSize + 1)) in
    let rg := or_default (ranges opts) (repeat 1%float (inputSize + 1)) in
    print (ConvertedModel onnxFile) ;;
    print (ToModel nnetFile) ;;
    print (ShowInputMins mins) ;;
    print (ShowInputMaxes maxes) ;;
    writeNNet (weights st) (biases st) mins maxes mu rg nnetFile
  else report outputName st.

(** Lines 134-137. *)
Definition maybe_transpose (take_transpose : bool) (st : scan_state)
    : M scan_state :=
  if take_transpose then
    print TakingTranspose ;;
    ret (mk_state (inputName st) (map transpose (weights st)) (biases st))
  else ret st.

(** Lines 22-23: [onnxFile[:-4] + 'nnet']. *)
Definition default_nnetFile (onnxFile nnetFile : string) : string :=
  if (nnetFile =? "")%string
  then (substring 0 (String.length onnxFile - 4) onnxFile ++ "nnet")%string
  else nnetFile.

(** Lines 39-132: the walk from the resolved input name. *)
Definition walk (graph : GraphProto) (inName outName : string)
    : M scan_state :=
  scan graph outName (node graph) (mk_state inName [] []).

(** [onnx2nnet]; [graph] is [onnx.load(onnxFile).graph]. *)
Definition onnx2nnet (onnxFile : string) (graph : GraphProto)
    (opts : options) (nnetFile inName outName : string)
    (take_transpose : bool) : M unit :=
  let nnetFile := default_nnetFile onnxFile nnetFile in
  inName <- default_name inName (graph_input graph) 29 ;;
  outName <- default_name outName (graph_output graph) 32 ;;
  st <- walk graph inName outName ;;
  st <- maybe_transpose take_transpose st ;;
  check_and_write onnxFile nnetFile outName opts st.

Definition empty_world : world := mk_world [] [].

(** The state a [flow] carries. *)
Definition state_of (f : flow) : scan_state :=
  match f with Continue st => st | Break st => st end.

(** The loop arrives at the end of [nodes] in state [st'], having started
    them in [st]: no node of [nodes] broke out or raised. *)
Inductive reaches (graph : GraphProto) (outputName : string)
    : list NodeProto -> scan_state -> scan_state -> Prop :=
| reaches_nil st : reaches graph outputName [] st st
| reaches_cons nd rest st st' st'' :
    (forall w, visit graph outputName st nd w = (Ok (Continue st'), w)) ->
    reaches graph outputName rest st' st'' ->
    reaches graph outputName (nd :: rest) st st''.

(** The graph with another node list. *)
Definition with_nodes (graph : GraphProto) (nodes : list NodeProto)
    : GraphProto :=
  mk_graph nodes (initializer graph) (graph_input graph)
           (graph_output graph).

(** A node with the operands of a two-operand input list exchanged. *)
Definition swap_operands (nd : NodeProto) : NodeProto :=
  mk_node (op_type nd)
          (match input nd with
           | [a; b] => [b; a]
           | l => l
           end)
          (output nd) (attribute nd).

(** How many initializers carry a name. *)
Definition count_named (graph : GraphProto) (name : string) : nat :=
  count_occ string_dec (map tensor_name (initializer graph)) name.

(** Of the two operands [a] and [b], the one that is not the cursor, as
    lines 56-59 choose it. *)
Definition other_operand (a b cursor : string) : string :=
  if (a =? cursor)%string then b else a.

(** The four operator kinds the loop handles. *)
Definition supported (op : string) : bool :=
  existsb (String.eqb op) ["MatMul"; "Add"; "Gemm"; "Relu"].

(** Two attributes that differ at most in the integer of a [transB]. *)
Definition same_but_transB (a b : AttributeProto) : Prop :=
  attr_name a = attr_name b /\ attr_f a = attr_f b /\
  (attr_name a <> "transB" -> attr_i a = attr_i b).

Definition node_same_but_transB (m n : NodeProto) : Prop :=
  op_type m = op_type n /\ input m = input n /\ output m = output n /\
  Forall2 same_but_transB (attribute m) (attribute n).

Definition graph_same_but_transB (g h : GraphProto) : Prop :=
  Forall2 node_same_but_transB (node g) (node h) /\
  initializer g = initializer h /\
  graph_input g = graph_input h /\ graph_output g = graph_output h.

(** The lines [report] prints for a state that fails the check. *)
Definition diagnostics (outputName : string) (st : scan_state)
    : list message :=
  (if (outputName =? inputName st)%string then []
   else [NameMismatch outputName (inputName st)]) ++
  (if 0 <? length (weights st) then []
   else [NoWeights (length (weights st))]) ++
  (if length (weights st) =? length (biases st) then []
   else [LenMismatch (length (weights st)) (length (biases st))]) ++
  [CouldNotWrite].

(** The three conditions of line 140. *)
Definition chain_complete (outputName : string) (st : scan_state) : Prop :=
  outputName = inputName st /\ 0 < length (weights st) /\
  length (weights st) = length (biases st).

(** [check_and_write] hands the layers of [st] to the writer. *)
Definition hands_over (nnetFile : string) (st : scan_state)
    (r : result unit * world) (w : world) : Prop :=
  exists out mins maxes mu rg,
    r = (Ok tt,
         mk_world out
           (written w ++
            [mk_call (weights st) (biases st) mins maxes mu rg nnetFile])).

(** A tensor name, given or inferred, without touching the world. *)
Definition resolves (name : string) (declared : list ValueInfoProto)
    (line : nat) (resolved : string) : Prop :=
  forall w, default_name name declared line w = (Ok resolved, w).

(** ** The script *)

(** The lines the script prints itself. *)
Inductive script_message : Type :=
| UsingDefaults                                   (* line 175 *)
| NeedOnnxFile.                                   (* line 182 *)

(** Lines 170-182, run with [sys.argv = argv]; [load] is [onnx.load]
    followed by [.graph].  The script's own lines come first, then what
    the converter does to the world. *)
Definition main (load : string -> GraphProto) (argv : list string)
    (w : world) : list script_message * (result unit * world) :=
  if 1 <? length argv then
    match nth_error argv 1 with
    | Some onnxFile =>
        ([UsingDefaults],
         if 2 <? length argv then
           match nth_error argv 2 with
           | Some nnetFile =>
               onnx2nnet onnxFile (load onnxFile) no_options nnetFile
                         "" "" false w
           | None => (Raise (IndexError 178), w)
           end
         else
           onnx2nnet onnxFile (load onnxFile) no_options "" "" "" false w)
    | None => ([UsingDefaults], (Raise (IndexError 176), w))
    end
  else ([NeedOnnxFile], (Ok tt, w)).

(** ** Chains of nodes *)




(** The last attribute of a name, if any. *)
Definition last_attr (name : string) (attrs : list AttributeProto)
    : option AttributeProto :=
  find (fun a => (attr_name a =? name)%string) (rev attrs).

(** A matrix: two dimensions and as many elements as they span. *)
Definition is_matrix (a : ndarray) (r c : nat) : Prop :=
  shape a = [r; c] /\ length (data a) = r * c.

(** ** Effects of a computation *)

(** A computation that calls the writer in no world. *)
Definition keeps_files {A} (c : M A) : Prop :=
  forall w r w', c w = (r, w') -> written w' = written w.

(** A computation that leaves the world alone. *)
Definition silent {A} (c : M A) : Prop :=
  forall w r w', c w = (r, w') -> w' = w.

(** One call of the writer as [onnx2nnet] makes it: matching, non-empty
    layer lists, the file name given or derived, and bounds and
    normalization given or sized by the leading dimension of the first
    weight. *)
Definition well_formed_call (onnxFile nnetFile : string) (opts : options)
    (c : nnet_call) : Prop :=
  0 < length (call_weights c) /\
  length (call_weights c) = length (call_biases c) /\
  call_file c = default_nnetFile onnxFile nnetFile /\
  exists W Ws k dims,
    call_weights c = W :: Ws /\ shape W = k :: dims /\
    call_inputMins c = or_default (inputMins opts) (repeat float32_min k) /\
    call_inputMaxes c = or_default (inputMaxes opts) (repeat float32_max k) /\
    call_means c = or_default (means opts) (repeat 0%float (k + 1)) /\
    call_ranges c = or_default (ranges opts) (repeat 1%float (k + 1)).

(** Whatever [c] returns satisfies [P]. *)
Definition ensures {A} (c : M A) (P : A -> Prop) : Prop :=
  forall w a w', c w = (Ok a, w') -> P a.

(** No weight yet, or a cursor that is the first output of one of
    [nodes]. *)
Definition produced (nodes : list NodeProto) (st : scan_state) : Prop :=
  weights st = [] \/
  exists nd os, In nd nodes /\ output nd = inputName st :: os.

(** ** Sample graphs *)

Module Sample.

Definition W1 : ndarray := mk_ndarray [2; 3] [1; 2; 3; 4; 5; 6]%float.
Definition B1 : ndarray := mk_ndarray [2] [0.5; 0.25]%float.
Definition W2 : ndarray := mk_ndarray [1; 2] [7; 8]%float.
Definition B2 : ndarray := mk_ndarray [1] [9]%float.
Definition scalar : ndarray := mk_ndarray [] [3]%float.

Definition tensors : list TensorProto :=
  [mk_tensor "W1" W1; mk_tensor "B1" B1;
   mk_tensor "W2" W2; mk_tensor "B2" B2; mk_tensor "s" scalar].

Definition one_io (nodes : list NodeProto) : GraphProto :=
  mk_graph nodes tensors [mk_value_info "x"] [mk_value_info "y"].

(** Gemm, Relu, Gemm: the two-layer network of the specification. *)
Definition two_gemm : GraphProto :=
  one_io [mk_node "Gemm" ["x"; "W1"; "B1"] ["h"] [];
          mk_node "Relu" ["h"] ["r"] [];
          mk_node "Gemm" ["r"; "W2"; "B2"] ["y"] []].

(** MatMul, Add, Relu, MatMul, Add. *)
Definition two_matmul : GraphProto :=
  one_io [mk_node "MatMul" ["x"; "W1"] ["m1"] [];
          mk_node "Add" ["m1"; "B1"] ["h"] [];
          mk_node "Relu" ["h"] ["r"] [];
          mk_node "MatMul" ["r"; "W2"] ["m2"] [];
          mk_node "Add" ["m2"; "B2"] ["y"] []].

(** A 0-dimensional array where the first weight is expected. *)
Definition scalar_weight : GraphProto :=
  one_io [mk_node "MatMul" ["x"; "s"] ["m"] [];
          mk_node "Add" ["m"; "B1"] ["y"] []].

(** [two_matmul] with a Sigmoid in place of its Relu. *)
Definition with_sigmoid : GraphProto :=
  one_io [mk_node "MatMul" ["x"; "W1"] ["m1"] [];
          mk_node "Add" ["m1"; "B1"] ["h"] [];
          mk_node "Sigmoid" ["h"] ["r"] [];
          mk_node "MatMul" ["r"; "W2"] ["m2"] [];
          mk_node "Add" ["m2"; "B2"] ["y"] []].

(** A Gemm with [alpha = 2.0] and [transA = 1]. *)
Definition gemm_scaled : NodeProto :=
  mk_node "Gemm" ["x"; "W1"; "B1"] ["y"]
          [mk_attr "alpha" 2%float 0; mk_attr "transA" 0%float 1].

(** Gemm nodes whose bias name has no initializer. *)
Definition gemm_no_bias (beta : float) : NodeProto :=
  mk_node "Gemm" ["x"; "W1"; "nobias"] ["y"]
          [mk_attr "beta" beta 0].

(** Gemm nodes with a [transB] attribute. *)
Definition gemm_transB (i : Z) : GraphProto :=
  one_io [mk_node "Gemm" ["x"; "W1"; "B1"] ["y"]
                  [mk_attr "transB" 0%float i]].

(** A first layer whose weight and bias names have no initializer,
    before a complete second layer. *)
Definition matmul_missing : NodeProto :=
  mk_node "MatMul" ["x"; "nowhere"] ["m0"] [].

Definition gemm_missing : NodeProto :=
  mk_node "Gemm" ["x"; "nowhere"; "B1"] ["y"] [].

Definition missing_weight : GraphProto :=
  one_io [matmul_missing;
          mk_node "Add" ["m0"; "nobias"] ["h"] [];
          mk_node "Relu" ["h"] ["r"] [];
          mk_node "MatMul" ["r"; "W2"] ["m2"] [];
          mk_node "Add" ["m2"; "B2"] ["y"] []].

(** Two initializers of one name. *)
Definition twice : GraphProto :=
  mk_graph [] [mk_tensor "W1" W1; mk_tensor "W1" W2] [] [].

Definition start : scan_state := mk_state "x" [] [].

(** The nodes of [two_gemm], and nodes of an operator that is not
    handled: one fed by the output, one fed by a tensor off the chain. *)
Definition gemm1 : NodeProto := mk_node "Gemm" ["x"; "W1"; "B1"] ["h"] [].
Definition relu1 : NodeProto := mk_node "Relu" ["h"] ["r"] [].
Definition gemm2 : NodeProto := mk_node "Gemm" ["r"; "W2"; "B2"] ["y"] [].
Definition conv_aside : NodeProto := mk_node "Conv" ["u"; "K"] ["v"] [].

(** Malformed nodes: a MatMul with one input, a Relu without output. *)
Definition matmul_unary : NodeProto := mk_node "MatMul" ["x"] ["m"] [].
Definition relu_blind : NodeProto := mk_node "Relu" ["x"] [] [].

(** Bounds and normalization of lengths that fit no layer. *)
Definition odd_options : options :=
  mk_options (Some [0%float]) (Some []) (Some [1%float; 2%float])
             (Some []).

End Sample.

(** ** Running the monad *)

Lemma bind_ok {A B} (c : M A) (k : A -> M B) w a w' :
  c w = (Ok a, w') -> bind c k w = k a w'.
Proof. intros H. unfold bind. now rewrite H. Qed.

Lemma bind_raise {A B} (c : M A) (k : A -> M B) w e w' :
  c w = (Raise e, w') -> bind c k w = (Raise e, w').
Proof. intros H. unfold bind. now rewrite H. Qed.

(** ** The loop body, case by case *)

Section Visit.

Variable graph : GraphProto.
Variable outputName : string.
Variable st : scan_state.
Variable nd : NodeProto.

Lemma visit_skip w :
  str_in (inputName st) (input nd) = false ->
  visit graph outputName st nd w = (Ok (Continue st), w).
Proof. intros H. unfold visit. now rewrite H. Qed.

Lemma visit_matmul a b o os w :
  op_type nd = "MatMul" -> input nd = [a; b] ->
  str_in (inputName st) [a; b] = true -> output nd = o :: os ->
  visit graph outputName st nd w =
  (Ok (check_output outputName
         (mk_state o
            (weights st ++
             arrays_named graph (other_operand a b (inputName st)))
            (biases st))), w).
Proof.
  intros Hop Hin Hmem Hout. unfold visit, other_index, other_operand.
  rewrite Hop, Hin, Hmem, Hout. simpl.
  destruct (a =? inputName st)%string; reflexivity.
Qed.

Lemma visit_add a b o os w :
  op_type nd = "Add" -> input nd = [a; b] ->
  str_in (inputName st) [a; b] = true -> output nd = o :: os ->
  visit graph outputName st nd w =
  (Ok (check_output outputName
         (mk_state o (weights st)
            (biases st ++
             arrays_named graph (other_operand a b (inputName st))))),
   w).
Proof.
  intros Hop Hin Hmem Hout. unfold visit, other_index, other_operand.
  rewrite Hop, Hin, Hmem, Hout. simpl.
  destruct (a =? inputName st)%string; reflexivity.
Qed.


Lemma visit_unsupported w :
  supported (op_type nd) = false ->
  str_in (inputName st) (input nd) = true ->
  visit graph outputName st nd w =
  (Ok (Break (mk_state (inputName st) [] [])),
   mk_world (stdout w ++ [NotSupported (op_type nd)]) (written w)).
Proof.
  intros Hop Hmem. unfold supported in Hop. simpl in Hop.
  repeat (apply orb_false_elim in Hop; destruct Hop as [? Hop]).
  unfold visit. rewrite Hmem.
  repeat match goal with
         | H : (_ =? _)%string = false |- _ => rewrite H; clear H
         end.
  reflexivity.
Qed.

End Visit.

(** ** Initializers by name *)

Lemma arrays_named_length graph name :
  length (arrays_named graph name) = count_named graph name.
Proof.
  unfold arrays_named, count_named.
  induction (initializer graph) as [|t ts IH]; simpl; [reflexivity|].
  destruct (string_dec (tensor_name t) name) as [E|E].
  - apply String.eqb_eq in E. rewrite E. simpl. now rewrite IH.
  - apply String.eqb_neq in E. now rewrite E.
Qed.

Lemma str_in_names graph name :
  str_in name (map tensor_name (initializer graph)) =
  negb (length (arrays_named graph name) =? 0).
Proof.
  unfold str_in, arrays_named.
  induction (initializer graph) as [|t ts IH]; simpl; [reflexivity|].
  rewrite String.eqb_sym.
  destruct (tensor_name t =? name)%string; simpl; [reflexivity|exact IH].
Qed.

Lemma arrays_named_present graph name B rest :
  arrays_named graph name = B :: rest ->
  str_in name (map tensor_name (initializer graph)) = true.
Proof. intros H. rewrite str_in_names, H. reflexivity. Qed.

(** ** The Gemm case *)

Section Gemm.

Variable graph : GraphProto.
Variable outputName : string.
Variable st : scan_state.
Variable nd : NodeProto.
Variables x weightName biasName : string.
Hypothesis Hop : op_type nd = "Gemm".
Hypothesis Hin : input nd = [x; weightName; biasName].
Hypothesis Hmem : str_in (inputName st) (input nd) = true.

Let a := read_attrs (attribute nd).

Lemma visit_gemm_no_weight w :
  arrays_named graph weightName = [] ->
  visit graph outputName st nd w = (Raise (IndexError 103), w).
Proof.
  intros HW. unfold visit. rewrite Hmem, Hop, Hin. simpl.
  unfold bind. simpl. rewrite HW. reflexivity.
Qed.

Lemma visit_gemm_bias W Wrest B Brest o os w :
  arrays_named graph weightName = W :: Wrest ->
  arrays_named graph biasName = B :: Brest ->
  output nd = o :: os ->
  visit graph outputName st nd w =
  (Ok (check_output outputName
         (mk_state o
            (weights st ++
             [scale (alpha a) (if transA a then transpose W else W)])
            (biases st ++ [scale (beta a) B]))), w).
Proof.
  intros HW HB Hout. unfold visit. rewrite Hmem, Hop, Hin. simpl.
  unfold bind. simpl. rewrite HW. simpl.
  rewrite (arrays_named_present _ _ _ _ HB), HB, Hout. reflexivity.
Qed.

Lemma visit_gemm_no_bias W Wrest n dims o os w :
  arrays_named graph weightName = W :: Wrest ->
  str_in biasName (map tensor_name (initializer graph)) = false ->
  shape (scale (alpha a) (if transA a then transpose W else W))
    = n :: dims ->
  output nd = o :: os ->
  visit graph outputName st nd w =
  (Ok (check_output outputName
         (mk_state o
            (weights st ++
             [scale (alpha a) (if transA a then transpose W else W)])
            (biases st ++ [scale (beta a) (zeros n)]))), w).
Proof.
  intros HW HB Hshape Hout. unfold visit. rewrite Hmem, Hop, Hin. simpl.
  unfold bind. simpl. rewrite HW. simpl. rewrite HB.
  simpl in Hshape. fold a. rewrite Hshape, Hout. reflexivity.
Qed.

End Gemm.

(** ** The loop *)

Lemma scan_reaches graph outputName pre rest st st' w :
  reaches graph outputName pre st st' ->
  scan graph outputName (pre ++ rest) st w =
  scan graph outputName rest st' w.
Proof.
  induction 1 as [|nd pre st st1 st2 Hv _ IH]; simpl; [reflexivity|].
  rewrite (bind_ok _ _ _ _ _ (Hv w)). exact IH.
Qed.

Lemma scan_break graph outputName nd rest st st' w w' :
  visit graph outputName st nd w = (Ok (Break st'), w') ->
  scan graph outputName (nd :: rest) st w = (Ok st', w').
Proof. intros H. simpl. now rewrite (bind_ok _ _ _ _ _ H). Qed.

(** The loop body reads the graph's initializers only. *)
Lemma visit_with_nodes graph nodes outputName st nd :
  visit (with_nodes graph nodes) outputName st nd =
  visit graph outputName st nd.
Proof. reflexivity. Qed.

Lemma scan_with_nodes graph nodes outputName l st w :
  scan (with_nodes graph nodes) outputName l st w =
  scan graph outputName l st w.
Proof.
  revert st w.
  induction l as [|nd l IH]; intros st w; simpl; [reflexivity|].
  unfold bind. rewrite visit_with_nodes.
  destruct (visit graph outputName st nd w) as [[[s|s]|e] w'];
    try reflexivity.
  now rewrite IH.
Qed.

(** ** Floats *)

(** Zero times a finite float is a zero (of either sign). *)
Lemma mul_zero_finite (b : float) :
  is_finite b = true -> PrimFloat.eqb (0 * b) 0 = true.
Proof.
  unfold is_finite, is_nan, is_infinity. intros H.
  rewrite !FloatAxioms.eqb_spec, abs_spec in H.
  rewrite FloatAxioms.eqb_spec, mul_spec.
  change (Prim2SF 0) with (S754_zero false).
  change (Prim2SF infinity) with (S754_infinity false) in H.
  destruct (Prim2SF b) as [s|s| |s m e]; simpl in *.
  - destruct s; reflexivity.
  - destruct s; vm_compute in H; discriminate.
  - discriminate.
  - destruct s; reflexivity.
Qed.

Lemma scale_zeros_all_zero (b : float) (n : nat) :
  is_finite b = true -> all_zero (scale b (zeros n)) = true.
Proof.
  intros H. unfold all_zero, scale, zeros. simpl.
  induction n as [|n IH]; simpl; [reflexivity|].
  now rewrite (mul_zero_finite b H), IH.
Qed.

(** The largest finite binary32 number, [(2^24 - 1) * 2^104], and its
    opposite. *)
Lemma float32_max_value :
  Prim2SF float32_max = S754_finite false (16777215 * 2 ^ 29) 75 /\
  Prim2SF float32_min = S754_finite true (16777215 * 2 ^ 29) 75.
Proof. split; vm_compute; reflexivity. Qed.

(** ** Shapes *)

Lemma shape_scale c a : shape (scale c a) = shape a.
Proof. reflexivity. Qed.

Lemma shape_transpose a : shape (transpose a) = rev (shape a).
Proof. reflexivity. Qed.

Lemma length_data_scale c a : length (data (scale c a)) = length (data a).
Proof. unfold scale. simpl. apply length_map. Qed.

Lemma shape_gemm_weight_nonempty c (t : bool) W :
  shape W <> [] ->
  exists n dims, shape (scale c (if t then transpose W else W)) = n :: dims.
Proof.
  intros H. rewrite shape_scale. destruct t.
  - rewrite shape_transpose.
    destruct (rev (shape W)) as [|n dims] eqn:E.
    + apply (f_equal (@rev nat)) in E. rewrite rev_involutive in E.
      now destruct H.
    + now exists n, dims.
  - destruct (shape W) as [|n dims]; [now destruct H|now exists n, dims].
Qed.

(** The transpose of a matrix: element [(j, i)] of the result is element
    [(i, j)] of the argument. *)
Lemma transpose_matrix r c d i j :
  length d = r * c -> i < r -> j < c ->
  shape (transpose (mk_ndarray [r; c] d)) = [c; r] /\
  nth (j * r + i) (data (transpose (mk_ndarray [r; c] d))) 0%float =
  nth (i * c + j) d 0%float.
Proof.
  intros Hlen Hi Hj. split; [reflexivity|].
  unfold transpose. cbn [shape data rev app unravel ravel].
  set (f := fun k => nth _ d 0%float).
  assert (Hk : j * r + i < length d) by nia.
  rewrite (nth_indep _ 0%float (f 0))
    by (rewrite length_map, length_seq; exact Hk).
  rewrite (map_nth f), seq_nth by exact Hk.
  subst f. cbn beta. rewrite Nat.add_0_l.
  replace (j * r + i) with (i + j * r) by lia.
  rewrite Nat.Div0.mod_add, Nat.div_add by lia.
  rewrite (Nat.mod_small i r), (Nat.div_small i r) by lia.
  rewrite Nat.add_0_l, (Nat.mod_small j c) by lia.
  f_equal. lia.
Qed.

(** ** Attributes *)

Section Defaults.

Variable attrs : list AttributeProto.

Let names := map attr_name attrs.

Lemma fold_read_attr_fields acc :
  let r := fold_left read_attr attrs acc in
  (~ In "alpha" names -> alpha r = alpha acc) /\
  (~ In "beta" names -> beta r = beta acc) /\
  (~ In "transA" names -> transA r = transA acc) /\
  (~ In "transB" names -> transB r = transB acc).
Proof.
  subst names. revert acc.
  induction attrs as [|x l IH]; intros acc; simpl.
  - tauto.
  - destruct (IH (read_attr acc x)) as (Ha & Hb & Hta & Htb).
    unfold read_attr in *.
    repeat split; intros Hn;
      [rewrite Ha by tauto|rewrite Hb by tauto
      |rewrite Hta by tauto|rewrite Htb by tauto];
      repeat match goal with
             | |- context [(attr_name x =? ?s)%string] =>
                 destruct (String.eqb_spec (attr_name x) s) as [E|_];
                 [try (exfalso; apply Hn; now left); try reflexivity|]
             end; reflexivity.
Qed.

Lemma read_attrs_defaults :
  (~ In "alpha" names -> alpha (read_attrs attrs) = 1%float) /\
  (~ In "beta" names -> beta (read_attrs attrs) = 1%float) /\
  (~ In "transA" names -> transA (read_attrs attrs) = false) /\
  (~ In "transB" names -> transB (read_attrs attrs) = false).
Proof. apply fold_read_attr_fields. Qed.

End Defaults.

(** Reading two attribute lists that differ in [transB] integers only
    gives the same [alpha], [beta] and [transA]. *)
Lemma fold_read_attr_transB l1 l2 :
  Forall2 same_but_transB l1 l2 ->
  forall acc1 acc2,
    alpha acc1 = alpha acc2 -> beta acc1 = beta acc2 ->
    transA acc1 = transA acc2 ->
    alpha (fold_left read_attr l1 acc1) = alpha (fold_left read_attr l2 acc2)
    /\ beta (fold_left read_attr l1 acc1) = beta (fold_left read_attr l2 acc2)
    /\ transA (fold_left read_attr l1 acc1)
       = transA (fold_left read_attr l2 acc2).
Proof.
  induction 1 as [|x y l1 l2 (Hn & Hf & Hi) _ IH]; intros acc1 acc2 Ha Hb Ht;
    simpl; [tauto|].
  apply IH; unfold read_attr; rewrite <- Hn, <- Hf;
    repeat match goal with
           | |- context [(attr_name x =? ?s)%string] =>
               destruct (String.eqb_spec (attr_name x) s) as [E|_]
           end; simpl; try assumption; try reflexivity.
  rewrite Hi; [reflexivity|]. rewrite E. discriminate.
Qed.

Lemma read_attrs_transB l1 l2 :
  Forall2 same_but_transB l1 l2 ->
  alpha (read_attrs l1) = alpha (read_attrs l2) /\
  beta (read_attrs l1) = beta (read_attrs l2) /\
  transA (read_attrs l1) = transA (read_attrs l2).
Proof. intros H. now apply fold_read_attr_transB. Qed.

Lemma visit_initializer g h outputName st nd :
  initializer g = initializer h ->
  visit g outputName st nd = visit h outputName st nd.
Proof. intros H. unfold visit, arrays_named. now rewrite H. Qed.

Lemma visit_transB graph outputName st m n :
  node_same_but_transB m n ->
  visit graph outputName st m = visit graph outputName st n.
Proof.
  intros (Hop & Hin & Hout & Hattr).
  destruct (read_attrs_transB _ _ Hattr) as (Ha & Hb & Ht).
  unfold visit, other_index. now rewrite Hop, Hin, Hout, Ha, Hb, Ht.
Qed.

Lemma scan_transB graph outputName l1 l2 :
  Forall2 node_same_but_transB l1 l2 ->
  forall st w,
    scan graph outputName l1 st w = scan graph outputName l2 st w.
Proof.
  induction 1 as [|m n l1 l2 Hmn _ IH]; intros st w; simpl; [reflexivity|].
  unfold bind. rewrite (visit_transB _ _ _ _ _ Hmn).
  destruct (visit graph outputName st n w) as [[[s|s]|e] w'];
    try reflexivity.
  apply IH.
Qed.

(** ** Exchanged operands *)

Lemma visit_swap graph outputName st nd w :
  visit graph outputName st (swap_operands nd) w =
  visit graph outputName st nd w.
Proof.
  destruct nd as [op ins outs attrs]. unfold swap_operands. simpl.
  destruct ins as [|a [|b [|c ins]]]; try reflexivity.
  unfold visit, other_index, str_in. simpl.
  rewrite !orb_false_r, (orb_comm (inputName st =? b)%string).
  rewrite (String.eqb_sym (inputName st) a), (String.eqb_sym (inputName st) b).
  destruct (String.eqb_spec a (inputName st)) as [Ea|Ea];
    destruct (String.eqb_spec b (inputName st)) as [Eb|Eb];
    simpl; try reflexivity.
  now rewrite Ea, Eb.
Qed.

Lemma scan_swap graph outputName pre nd post st w :
  scan graph outputName (pre ++ swap_operands nd :: post) st w =
  scan graph outputName (pre ++ nd :: post) st w.
Proof.
  revert st w. induction pre as [|p pre IH]; intros st w; simpl.
  - unfold bind. now rewrite visit_swap.
  - unfold bind.
    destruct (visit graph outputName st p w) as [[[s|s]|e] w'];
      try reflexivity.
    apply IH.
Qed.

(** ** The whole function depends on the graph through its walk *)

Lemma onnx2nnet_walk g h onnxFile opts nnetFile inName outName tr w :
  graph_input g = graph_input h ->
  graph_output g = graph_output h ->
  (forall i o w', walk g i o w' = walk h i o w') ->
  onnx2nnet onnxFile g opts nnetFile inName outName tr w =
  onnx2nnet onnxFile h opts nnetFile inName outName tr w.
Proof.
  intros Hi Ho Hw. unfold onnx2nnet, bind. rewrite Hi, Ho.
  destruct (default_name inName (graph_input h) 29 w) as [[i|e] w1];
    [|reflexivity].
  destruct (default_name outName (graph_output h) 32 w1) as [[o|e] w2];
    [|reflexivity].
  now rewrite Hw.
Qed.

Lemma default_name_given name declared line w :
  name <> "" -> default_name name declared line w = (Ok name, w).
Proof.
  intros H. unfold default_name. apply String.eqb_neq in H. now rewrite H.
Qed.

Lemma default_name_unique v line w :
  default_name "" [v] line w = (Ok (value_name v), w).
Proof. reflexivity. Qed.

Lemma default_name_ambiguous declared line w :
  length declared <> 1 ->
  default_name "" declared line w = (Raise (AssertionError line), w).
Proof.
  intros H. unfold default_name. simpl. apply Nat.eqb_neq in H.
  unfold bind. now rewrite H.
Qed.

Lemma state_of_check_output outputName st :
  state_of (check_output outputName st) = st.
Proof. unfold check_output. now destruct (_ =? _)%string. Qed.

(** ** The final check *)

Lemma extracted_iff outputName st :
  extracted outputName st = true <-> chain_complete outputName st.
Proof.
  unfold extracted, chain_complete.
  rewrite !andb_true_iff, String.eqb_eq, Nat.ltb_lt, Nat.eqb_eq. tauto.
Qed.

Lemma report_run outputName st w :
  report outputName st w =
  (Ok tt, mk_world (stdout w ++ diagnostics outputName st) (written w)).
Proof.
  unfold report, diagnostics, bind, print, ret.
  destruct (outputName =? inputName st)%string,
           (0 <? length (weights st)),
           (length (weights st) =? length (biases st));
    simpl; rewrite <- ?app_assoc; reflexivity.
Qed.

Lemma check_and_write_complete onnxFile nnetFile outputName opts st w
    W Ws k dims :
  extracted outputName st = true ->
  weights st = W :: Ws -> shape W = k :: dims ->
  check_and_write onnxFile nnetFile outputName opts st w =
  (Ok tt,
   mk_world
     (stdout w ++
      [ConvertedModel onnxFile; ToModel nnetFile;
       ShowInputMins (or_default (inputMins opts) (repeat float32_min k));
       ShowInputMaxes (or_default (inputMaxes opts) (repeat float32_max k))])
     (written w ++
      [mk_call (weights st) (biases st)
         (or_default (inputMins opts) (repeat float32_min k))
         (or_default (inputMaxes opts) (repeat float32_max k))
         (or_default (means opts) (repeat 0%float (k + 1)))
         (or_default (ranges opts) (repeat 1%float (k + 1)))
         nnetFile])).
Proof.
  intros He HW Hs. unfold check_and_write. rewrite He, HW.
  unfold bind, print, writeNNet. simpl. rewrite Hs. simpl.
  rewrite <- !app_assoc. reflexivity.
Qed.

Lemma check_and_write_scalar onnxFile nnetFile outputName opts st w W Ws :
  extracted outputName st = true ->
  weights st = W :: Ws -> shape W = [] ->
  check_and_write onnxFile nnetFile outputName opts st w =
  (Raise (IndexError 142), w).
Proof.
  intros He HW Hs. unfold check_and_write. rewrite He, HW.
  unfold bind. simpl. now rewrite Hs.
Qed.

Lemma check_and_write_incomplete onnxFile nnetFile outputName opts st w :
  extracted outputName st = false ->
  check_and_write onnxFile nnetFile outputName opts st w =
  (Ok tt, mk_world (stdout w ++ diagnostics outputName st) (written w)).
Proof.
  intros He. unfold check_and_write. rewrite He. apply report_run.
Qed.

(** Each condition that fails is printed with the values it compares. *)
Lemma diagnostics_detail outputName st :
  In CouldNotWrite (diagnostics outputName st)
  /\ (outputName <> inputName st ->
      In (NameMismatch outputName (inputName st))
         (diagnostics outputName st))
  /\ (length (weights st) = 0 ->
      In (NoWeights 0) (diagnostics outputName st))
  /\ (length (weights st) <> length (biases st) ->
      In (LenMismatch (length (weights st)) (length (biases st)))
         (diagnostics outputName st)).
Proof.
  unfold diagnostics. rewrite !in_app_iff. repeat split.
  - simpl. tauto.
  - intros H. apply String.eqb_neq in H. rewrite H. simpl. tauto.
  - intros H. rewrite H. simpl. tauto.
  - intros H. apply Nat.eqb_neq in H. rewrite H. simpl. tauto.
Qed.

Lemma app_one_neq {A} (l : list A) (x : A) : l ++ [x] <> l.
Proof.
  intros H. apply (f_equal (@length A)) in H.
  rewrite length_app in H. simpl in H. lia.
Qed.

(** * Properties of the converter *)

(** C1 (as the code has it).  After the scan the layers are handed to the
    writer exactly when the cursor equals the output name, there is at
    least one weight, there are as many biases as weights, and the first
    weight array has at least one dimension.  When one of the first
    three conditions fails, the diagnostics are printed, nothing is
    written and no layer is passed on; when they hold and the first
    weight is 0-dimensional, reading its row count raises an index error
    and nothing is written either. *)
Theorem check_and_write_exactly
    onnxFile nnetFile outputName opts st w :
  (hands_over nnetFile st
     (check_and_write onnxFile nnetFile outputName opts st w) w
   <-> chain_complete outputName st /\
       exists W Ws k dims, weights st = W :: Ws /\ shape W = k :: dims)
  /\ (~ chain_complete outputName st ->
      check_and_write onnxFile nnetFile outputName opts st w =
      (Ok tt, mk_world (stdout w ++ diagnostics outputName st) (written w))
      /\ In CouldNotWrite (diagnostics outputName st)
      /\ (outputName <> inputName st ->
          In (NameMismatch outputName (inputName st))
             (diagnostics outputName st))
      /\ (length (weights st) = 0 ->
          In (NoWeights 0) (diagnostics outputName st))
      /\ (length (weights st) <> length (biases st) ->
          In (LenMismatch (length (weights st)) (length (biases st)))
             (diagnostics outputName st)))
  /\ (chain_complete outputName st ->
      (forall W Ws, weights st = W :: Ws -> shape W = []) ->
      check_and_write onnxFile nnetFile outputName opts st w =
      (Raise (IndexError 142), w)).
Proof.
  split; [split|split].
  - intros (out & mins & maxes & mu & rg & Hr).
    destruct (extracted outputName st) eqn:He.
    + split; [now apply extracted_iff|].
      destruct (weights st) as [|W Ws] eqn:HW.
      * apply extracted_iff in He. destruct He as (_ & Hpos & _).
        rewrite HW in Hpos. simpl in Hpos. lia.
      * destruct (shape W) as [|k dims] eqn:Hs.
        -- rewrite (check_and_write_scalar _ _ _ _ _ _ _ _ He HW Hs) in Hr.
           discriminate.
        -- now exists W, Ws, k, dims.
    + rewrite (check_and_write_incomplete _ _ _ _ _ _ He) in Hr.
      apply (f_equal (fun r => written (snd r))) in Hr. simpl in Hr.
      symmetry in Hr. now apply app_one_neq in Hr.
  - intros (Hc & W & Ws & k & dims & HW & Hs).
    apply extracted_iff in Hc.
    rewrite (check_and_write_complete _ _ _ _ _ _ _ _ _ _ Hc HW Hs).
    unfold hands_over. rewrite HW. repeat eexists.
  - intros Hn. split.
    + apply check_and_write_incomplete.
      destruct (extracted outputName st) eqn:He; [|reflexivity].
      now apply extracted_iff in He.
    + apply diagnostics_detail.
  - intros Hc Hs. apply extracted_iff in Hc.
    destruct (weights st) as [|W Ws] eqn:HW.
    + apply extracted_iff in Hc. destruct Hc as (_ & Hpos & _).
      rewrite HW in Hpos. simpl in Hpos. lia.
    + apply (check_and_write_scalar _ _ _ _ _ _ W Ws Hc HW).
      now apply (Hs W Ws).
Qed.

(** C2.  When the loop arrives at a node that lists the cursor among its
    inputs and whose operator is none of MatMul, Add, Gemm and Relu, the
    walk ends there with both accumulators empty, whatever had been
    accumulated; the function then prints its diagnostics and writes
    nothing. *)
Theorem unsupported_operator_aborts
    onnxFile graph opts nnetFile inName outName tr inN outN
    pre nd post st w :
  resolves inName (graph_input graph) 29 inN ->
  resolves outName (graph_output graph) 32 outN ->
  node graph = pre ++ nd :: post ->
  reaches graph outN pre (mk_state inN [] []) st ->
  str_in (inputName st) (input nd) = true ->
  supported (op_type nd) = false ->
  walk graph inN outN w =
    (Ok (mk_state (inputName st) [] []),
     mk_world (stdout w ++ [NotSupported (op_type nd)]) (written w))
  /\ onnx2nnet onnxFile graph opts nnetFile inName outName tr w =
     (Ok tt,
      mk_world
        (stdout w ++ [NotSupported (op_type nd)] ++
         (if tr then [TakingTranspose] else []) ++
         (if (outN =? inputName st)%string then []
          else [NameMismatch outN (inputName st)]) ++
         [NoWeights 0; CouldNotWrite])
        (written w)).
Proof.
  intros Hi Ho Hnodes Hreach Hmem Hop.
  assert (Hwalk : forall w0, walk graph inN outN w0 =
    (Ok (mk_state (inputName st) [] []),
     mk_world (stdout w0 ++ [NotSupported (op_type nd)]) (written w0))).
  { intros w0. unfold walk. rewrite Hnodes.
    rewrite (scan_reaches _ _ _ _ _ _ _ Hreach).
    apply scan_break. now apply visit_unsupported. }
  split; [apply Hwalk|].
  unfold onnx2nnet.
  rewrite (bind_ok _ _ _ _ _ (Hi w)), (bind_ok _ _ _ _ _ (Ho w)).
  rewrite (bind_ok _ _ _ _ _ (Hwalk w)).
  assert (He : extracted outN (mk_state (inputName st) [] []) = false)
    by (unfold extracted; simpl; now rewrite andb_false_r).
  destruct tr; unfold maybe_transpose, bind, print, ret; simpl map;
    cbv iota beta; rewrite (check_and_write_incomplete _ _ _ _ _ _ He);
    unfold diagnostics; simpl; rewrite <- !app_assoc; reflexivity.
Qed.

(** C9.  With the input name omitted and more than one graph input
    declared, the assertion of line 29 fails; with the output name
    omitted and more than one graph output declared, an assertion fails
    (that of line 32 once the input name is settled); nothing is printed
    or written.  With exactly one tensor declared, omitting the name is
    the same as giving that tensor's name. *)
Theorem ambiguous_endpoint
    onnxFile graph opts nnetFile inName outName tr w :
  (1 < length (graph_input graph) ->
   onnx2nnet onnxFile graph opts nnetFile "" outName tr w =
   (Raise (AssertionError 29), w))
  /\ (1 < length (graph_output graph) ->
      (exists line, In line [29; 32] /\
         onnx2nnet onnxFile graph opts nnetFile inName "" tr w =
         (Raise (AssertionError line), w))
      /\ (forall inN, resolves inName (graph_input graph) 29 inN ->
          onnx2nnet onnxFile graph opts nnetFile inName "" tr w =
          (Raise (AssertionError 32), w)))
  /\ (forall v, graph_input graph = [v] ->
      resolves "" (graph_input graph) 29 (value_name v) /\
      onnx2nnet onnxFile graph opts nnetFile "" outName tr w =
      onnx2nnet onnxFile graph opts nnetFile (value_name v) outName tr w)
  /\ (forall v, graph_output graph = [v] ->
      resolves "" (graph_output graph) 32 (value_name v) /\
      onnx2nnet onnxFile graph opts nnetFile inName "" tr w =
      onnx2nnet onnxFile graph opts nnetFile inName (value_name v) tr w).
Proof.
  assert (Hout : forall w0, 1 < length (graph_output graph) ->
            default_name "" (graph_output graph) 32 w0 =
            (Raise (AssertionError 32), w0)).
  { intros w0 H. apply default_name_ambiguous. lia. }
  split; [|split; [|split]].
  - intros H. unfold onnx2nnet.
    apply bind_raise, default_name_ambiguous. lia.
  - intros H. split.
    + unfold onnx2nnet, bind.
      destruct (inName =? "")%string eqn:E.
      * apply String.eqb_eq in E. subst inName.
        destruct (Nat.eq_dec (length (graph_input graph)) 1) as [L|L].
        -- destruct (graph_input graph) as [|v [|? ?]]; try discriminate.
           exists 32. split; [simpl; tauto|].
           rewrite default_name_unique, Hout by exact H. reflexivity.
        -- exists 29. split; [simpl; tauto|].
           now rewrite default_name_ambiguous.
      * apply String.eqb_neq in E. exists 32. split; [simpl; tauto|].
        rewrite default_name_given, Hout by assumption. reflexivity.
    + intros inN Hr. unfold onnx2nnet.
      rewrite (bind_ok _ _ _ _ _ (Hr w)). now apply bind_raise, Hout.
  - intros v Hv. split.
    + intros w0. rewrite Hv. apply default_name_unique.
    + unfold onnx2nnet, bind. rewrite Hv.
      destruct (String.eqb_spec (value_name v) "") as [E|E].
      * rewrite E. reflexivity.
      * rewrite default_name_unique,
          (default_name_given (value_name v)) by exact E.
        reflexivity.
  - intros v Hv. split.
    + intros w0. rewrite Hv. apply default_name_unique.
    + unfold onnx2nnet, bind. rewrite Hv.
      destruct (default_name inName (graph_input graph) 29 w)
        as [[i|e] w1]; [|reflexivity].
      destruct (String.eqb_spec (value_name v) "") as [E|E].
      * rewrite E. reflexivity.
      * rewrite default_name_unique,
          (default_name_given (value_name v)) by exact E.
        reflexivity.
Qed.

(** C3.  A Gemm node that the loop consumes appends, for the first
    initializer [W] of its second input name, the array
    [alpha * (transpose W if transA else W)]; with [alpha = 2.0] and
    [transA] set this is [2.0 * transpose W].  Attributes that the node
    does not carry keep their defaults 1.0, 1.0, false and false. *)
Theorem gemm_weight
    graph outputName st nd x weightName biasName W Wrest o os w :
  op_type nd = "Gemm" ->
  input nd = [x; weightName; biasName] ->
  str_in (inputName st) (input nd) = true ->
  arrays_named graph weightName = W :: Wrest ->
  (arrays_named graph biasName <> [] \/ shape W <> []) ->
  output nd = o :: os ->
  (exists f,
     visit graph outputName st nd w = (Ok f, w) /\
     inputName (state_of f) = o /\
     weights (state_of f) =
     weights st ++
     [scale (alpha (read_attrs (attribute nd)))
        (if transA (read_attrs (attribute nd)) then transpose W else W)])
  /\ (alpha (read_attrs (attribute nd)) = 2%float ->
      transA (read_attrs (attribute nd)) = true ->
      exists f,
        visit graph outputName st nd w = (Ok f, w) /\
        weights (state_of f) = weights st ++ [scale 2 (transpose W)])
  /\ (~ In "alpha" (map attr_name (attribute nd)) ->
      alpha (read_attrs (attribute nd)) = 1%float)
  /\ (~ In "beta" (map attr_name (attribute nd)) ->
      beta (read_attrs (attribute nd)) = 1%float)
  /\ (~ In "transA" (map attr_name (attribute nd)) ->
      transA (read_attrs (attribute nd)) = false)
  /\ (~ In "transB" (map attr_name (attribute nd)) ->
      transB (read_attrs (attribute nd)) = false).
Proof.
  intros Hop Hin Hmem HW Hbias Hout.
  assert (Hrun : exists f,
     visit graph outputName st nd w = (Ok f, w) /\
     inputName (state_of f) = o /\
     weights (state_of f) =
     weights st ++
     [scale (alpha (read_attrs (attribute nd)))
        (if transA (read_attrs (attribute nd)) then transpose W else W)]).
  { destruct (arrays_named graph biasName) as [|B Brest] eqn:HB.
    - destruct Hbias as [Hb|Hs]; [now destruct Hb|].
      destruct (shape_gemm_weight_nonempty
                  (alpha (read_attrs (attribute nd)))
                  (transA (read_attrs (attribute nd))) W Hs)
        as (n & dims & Hshape).
      eexists. split.
      + eapply visit_gemm_no_bias; try eassumption.
        rewrite str_in_names, HB. reflexivity.
      + now rewrite state_of_check_output.
    - eexists. split.
      + eapply visit_gemm_bias; eassumption.
      + now rewrite state_of_check_output. }
  split; [exact Hrun|]. split.
  - intros Ha Ht. destruct Hrun as (f & Hv & _ & Hw).
    exists f. split; [exact Hv|]. now rewrite Hw, Ha, Ht.
  - apply read_attrs_defaults.
Qed.

(** C4 (as the code has it).  A Gemm node whose third input name has no
    initializer appends [beta] times a vector of zeros whose length is
    the leading dimension of the node's weight (as transposed and
    scaled); all its elements are zero whenever [beta] is finite.  When
    the initializer exists, its first array is appended multiplied by
    [beta]. *)
Theorem gemm_bias
    graph outputName st nd x weightName biasName W Wrest o os w :
  op_type nd = "Gemm" ->
  input nd = [x; weightName; biasName] ->
  str_in (inputName st) (input nd) = true ->
  arrays_named graph weightName = W :: Wrest ->
  output nd = o :: os ->
  (~ In biasName (map tensor_name (initializer graph)) ->
   forall n dims,
     shape (scale (alpha (read_attrs (attribute nd)))
              (if transA (read_attrs (attribute nd))
               then transpose W else W)) = n :: dims ->
     exists f bias,
       visit graph outputName st nd w = (Ok f, w) /\
       biases (state_of f) = biases st ++ [bias] /\
       bias = scale (beta (read_attrs (attribute nd))) (zeros n) /\
       shape bias = [n] /\ length (data bias) = n /\
       (is_finite (beta (read_attrs (attribute nd))) = true ->
        all_zero bias = true))
  /\ (forall B Brest,
        arrays_named graph biasName = B :: Brest ->
        exists f,
          visit graph outputName st nd w = (Ok f, w) /\
          biases (state_of f) =
          biases st ++ [scale (beta (read_attrs (attribute nd))) B]).
Proof.
  intros Hop Hin Hmem HW Hout. split.
  - intros Habs n dims Hshape.
    assert (HB : str_in biasName (map tensor_name (initializer graph))
                 = false).
    { unfold str_in. apply not_true_is_false. intros H.
      apply existsb_exists in H. destruct H as (y & Hy & E).
      apply String.eqb_eq in E. now subst y. }
    eexists. eexists. split; [|split; [|split; [reflexivity|]]].
    + eapply visit_gemm_no_bias; eassumption.
    + now rewrite state_of_check_output.
    + split; [reflexivity|]. split.
      * rewrite length_data_scale. apply repeat_length.
      * apply scale_zeros_all_zero.
  - intros B Brest HB. eexists. split.
    + eapply visit_gemm_bias; eassumption.
    + now rewrite state_of_check_output.
Qed.

Lemma arrays_named_not_in graph name :
  ~ In name (map tensor_name (initializer graph)) ->
  arrays_named graph name = [].
Proof.
  intros H. apply length_zero_iff_nil. rewrite arrays_named_length.
  now apply count_occ_not_In.
Qed.

Lemma scan_initializer g h outputName l :
  initializer g = initializer h ->
  forall st w, scan g outputName l st w = scan h outputName l st w.
Proof.
  intros H. induction l as [|nd l IH]; intros st w; simpl; [reflexivity|].
  unfold bind. rewrite (visit_initializer g h _ _ _ H).
  destruct (visit h outputName st nd w) as [[[s|s]|e] w'];
    try reflexivity.
  apply IH.
Qed.

(** C5 (as the code has it).  On the chain, a MatMul node whose weight
    name has no initializer raises nothing and prints nothing: no weight
    is appended, the cursor moves to the node's output and the loop goes
    on.  A Gemm node whose weight name has no initializer raises the
    index error of line 103. *)
Theorem missing_weight_initializer graph outputName st nd w :
  str_in (inputName st) (input nd) = true ->
  (forall a b o os,
     op_type nd = "MatMul" -> input nd = [a; b] -> output nd = o :: os ->
     ~ In (other_operand a b (inputName st))
          (map tensor_name (initializer graph)) ->
     visit graph outputName st nd w =
     (Ok (check_output outputName (mk_state o (weights st) (biases st))),
      w))
  /\ (forall x weightName biasName,
        op_type nd = "Gemm" -> input nd = [x; weightName; biasName] ->
        ~ In weightName (map tensor_name (initializer graph)) ->
        visit graph outputName st nd w = (Raise (IndexError 103), w)).
Proof.
  intros Hmem. split.
  - intros a b o os Hop Hin Hout Habs. rewrite Hin in Hmem.
    rewrite (visit_matmul _ _ _ _ _ _ _ _ w Hop Hin Hmem Hout).
    now rewrite (arrays_named_not_in _ _ Habs), app_nil_r.
  - intros x weightName biasName Hop Hin Habs.
    eapply visit_gemm_no_weight; try eassumption.
    now apply arrays_named_not_in.
Qed.

(** C6.  Two graphs that differ only in the integers of [transB]
    attributes are converted alike: same result, same output, same call
    of the writer. *)
Theorem transB_is_ignored
    g h onnxFile opts nnetFile inName outName tr w :
  graph_same_but_transB g h ->
  onnx2nnet onnxFile g opts nnetFile inName outName tr w =
  onnx2nnet onnxFile h opts nnetFile inName outName tr w.
Proof.
  intros (Hnodes & Hinit & Hi & Ho).
  apply onnx2nnet_walk; [exact Hi|exact Ho|].
  intros i o w'. unfold walk.
  rewrite (scan_transB _ _ _ _ Hnodes).
  now apply scan_initializer.
Qed.

(** C7.  Exchanging the two operands of a MatMul or Add node leaves the
    conversion unchanged: the operand that is not the cursor is the
    weight or bias name in either position. *)
Theorem operand_order_invariance
    graph pre nd post a b onnxFile opts nnetFile inName outName tr w :
  op_type nd = "MatMul" \/ op_type nd = "Add" ->
  input nd = [a; b] ->
  input (swap_operands nd) = [b; a]
  /\ other_operand a b a = b /\ other_operand b a a = b
  /\ onnx2nnet onnxFile (with_nodes graph (pre ++ swap_operands nd :: post))
       opts nnetFile inName outName tr w =
     onnx2nnet onnxFile (with_nodes graph (pre ++ nd :: post))
       opts nnetFile inName outName tr w.
Proof.
  intros _ Hin. split; [|split; [|split]].
  - unfold swap_operands. simpl. now rewrite Hin.
  - unfold other_operand. now rewrite String.eqb_refl.
  - unfold other_operand. destruct (String.eqb_spec b a); congruence.
  - apply onnx2nnet_walk; try reflexivity.
    intros i o w'. unfold walk. simpl.
    rewrite !scan_with_nodes. apply scan_swap.
Qed.

(** C8.  When the check succeeds with a first weight of leading
    dimension [k] and the caller gave no bounds and no normalization,
    the writer receives [k] input minima equal to the least binary32
    number, [k] input maxima equal to the greatest, and [k + 1] means 0.0
    and ranges 1.0. *)
Theorem default_normalization
    onnxFile nnetFile outputName st w W Ws k dims :
  chain_complete outputName st ->
  weights st = W :: Ws -> shape W = k :: dims ->
  (exists out,
     check_and_write onnxFile nnetFile outputName no_options st w =
     (Ok tt,
      mk_world out
        (written w ++
         [mk_call (weights st) (biases st)
            (repeat float32_min k) (repeat float32_max k)
            (repeat 0%float (k + 1)) (repeat 1%float (k + 1))
            nnetFile])))
  /\ length (repeat float32_min k) = k
  /\ length (repeat float32_max k) = k
  /\ length (repeat 0%float (k + 1)) = k + 1
  /\ length (repeat 1%float (k + 1)) = k + 1
  /\ Prim2SF float32_max = S754_finite false (16777215 * 2 ^ 29) 75
  /\ Prim2SF float32_min = S754_finite true (16777215 * 2 ^ 29) 75.
Proof.
  intros Hc HW Hs. apply extracted_iff in Hc.
  split.
  - eexists.
    rewrite (check_and_write_complete _ _ _ _ _ _ _ _ _ _ Hc HW Hs).
    reflexivity.
  - rewrite !repeat_length. repeat split; apply float32_max_value.
Qed.

(** C10.  A MatMul (respectively Add) node that the loop consumes
    appends to the weights (respectively biases) as many arrays as there
    are initializers named like its non-cursor operand: none when there
    is no such initializer, several when several share the name. *)
Theorem appended_by_name graph outputName st nd a b o os w :
  input nd = [a; b] ->
  str_in (inputName st) (input nd) = true ->
  output nd = o :: os ->
  (op_type nd = "MatMul" ->
   exists new,
     visit graph outputName st nd w =
     (Ok (check_output outputName
            (mk_state o (weights st ++ new) (biases st))), w) /\
     length new =
     count_named graph (other_operand a b (inputName st)))
  /\ (op_type nd = "Add" ->
      exists new,
        visit graph outputName st nd w =
        (Ok (check_output outputName
               (mk_state o (weights st) (biases st ++ new))), w) /\
        length new =
        count_named graph (other_operand a b (inputName st))).
Proof.
  intros Hin Hmem Hout. rewrite Hin in Hmem. split; intros Hop.
  - eexists. split; [eapply visit_matmul; eassumption|].
    apply arrays_named_length.
  - eexists. split; [eapply visit_add; eassumption|].
    apply arrays_named_length.
Qed.

(** * Concrete runs *)

(** C1, the claim as stated fails: the walk of [Sample.scalar_weight]
    ends at the output name with one weight and one bias, yet nothing is
    handed to the writer, because the first weight has no leading
    dimension. *)
Lemma scalar_weight_not_handed_over :
  walk Sample.scalar_weight "x" "y" empty_world =
    (Ok (mk_state "y" [Sample.scalar] [Sample.B1]), empty_world)
  /\ extracted "y" (mk_state "y" [Sample.scalar] [Sample.B1]) = true
  /\ onnx2nnet "net.onnx" Sample.scalar_weight no_options "" "" "" false
       empty_world = (Raise (IndexError 142), empty_world)
  /\ written empty_world = [].
Proof. repeat split; vm_compute; reflexivity. Qed.

(** The two-layer Gemm network is converted to two layers of shapes
    (2,3)/(2,) and (1,2)/(1,). *)
Example two_gemm_run :
  onnx2nnet "net.onnx" Sample.two_gemm no_options "" "" "" false empty_world
  = (Ok tt,
     mk_world
       [ConvertedModel "net.onnx"; ToModel "net.nnet";
        ShowInputMins (repeat float32_min 2);
        ShowInputMaxes (repeat float32_max 2)]
       [mk_call [Sample.W1; Sample.W2] [Sample.B1; Sample.B2]
          (repeat float32_min 2) (repeat float32_max 2)
          (repeat 0%float 3) (repeat 1%float 3) "net.nnet"]).
Proof. vm_compute. reflexivity. Qed.

Example transpose_W1 :
  scale 2 (transpose Sample.W1) =
  mk_ndarray [3; 2] [2; 8; 4; 10; 6; 12]%float.
Proof. vm_compute. reflexivity. Qed.

Lemma unsupported_operator_aborts_witness :
  walk Sample.with_sigmoid "x" "y" empty_world =
    (Ok (mk_state "h" [] []), mk_world [NotSupported "Sigmoid"] [])
  /\ onnx2nnet "net.onnx" Sample.with_sigmoid no_options "" "" "" true
       empty_world =
     (Ok tt,
      mk_world [NotSupported "Sigmoid"; TakingTranspose;
                NameMismatch "y" "h"; NoWeights 0; CouldNotWrite] []).
Proof.
  apply (unsupported_operator_aborts
           "net.onnx" Sample.with_sigmoid no_options "" "" "" true "x" "y"
           [mk_node "MatMul" ["x"; "W1"] ["m1"] [];
            mk_node "Add" ["m1"; "B1"] ["h"] []]
           (mk_node "Sigmoid" ["h"] ["r"] [])
           [mk_node "MatMul" ["r"; "W2"] ["m2"] [];
            mk_node "Add" ["m2"; "B2"] ["y"] []]
           (mk_state "h" [Sample.W1] [Sample.B1]) empty_world).
  - intros w. reflexivity.
  - intros w. reflexivity.
  - reflexivity.
  - eapply reaches_cons; [intros w; reflexivity|].
    eapply reaches_cons; [intros w; reflexivity|].
    apply reaches_nil.
  - reflexivity.
  - reflexivity.
Defined.

Lemma gemm_weight_witness :
  exists f,
    visit (Sample.one_io []) "y" Sample.start Sample.gemm_scaled empty_world
    = (Ok f, empty_world) /\
    weights (state_of f) = [] ++ [scale 2 (transpose Sample.W1)].
Proof.
  apply (gemm_weight (Sample.one_io []) "y" Sample.start Sample.gemm_scaled
           "x" "W1" "B1" Sample.W1 [] "y" [] empty_world).
  - reflexivity.
  - reflexivity.
  - reflexivity.
  - reflexivity.
  - left. discriminate.
  - reflexivity.
  - reflexivity.
  - reflexivity.
Defined.

(** C4, the claim as stated fails: with [beta] infinite and no bias
    initializer the appended bias is not a zero vector. *)
Lemma infinite_beta_bias_not_zero :
  count_named (Sample.one_io []) "nobias" = 0
  /\ visit (Sample.one_io []) "y" Sample.start
       (Sample.gemm_no_bias infinity) empty_world
     = (Ok (Break (mk_state "y" [Sample.W1] [mk_ndarray [2] [nan; nan]])),
        empty_world)
  /\ all_zero (mk_ndarray [2] [nan; nan]) = false.
Proof. repeat split; vm_compute; reflexivity. Qed.

Lemma gemm_bias_witness :
  exists f bias,
    visit (Sample.one_io []) "y" Sample.start (Sample.gemm_no_bias 0.5)
      empty_world = (Ok f, empty_world) /\
    biases (state_of f) = [] ++ [bias] /\
    bias = scale 0.5 (zeros 2) /\
    shape bias = [2] /\ length (data bias) = 2 /\
    (is_finite 0.5 = true -> all_zero bias = true).
Proof.
  apply (gemm_bias (Sample.one_io []) "y" Sample.start
           (Sample.gemm_no_bias 0.5) "x" "W1" "nobias" Sample.W1 [] "y" []
           empty_world) with (dims := [3]).
  - reflexivity.
  - reflexivity.
  - reflexivity.
  - reflexivity.
  - reflexivity.
  - simpl. intros [H|[H|[H|[H|[H|[]]]]]]; discriminate.
  - reflexivity.
Defined.

(** C5, the claim as stated fails: the first MatMul of
    [Sample.missing_weight] names a weight that no initializer carries;
    the loop goes on from its output, and the conversion ends by writing
    a file that holds the second layer only. *)
Lemma missing_weight_is_skipped :
  count_named Sample.missing_weight "nowhere" = 0
  /\ visit Sample.missing_weight "y" Sample.start Sample.matmul_missing
       empty_world = (Ok (Continue (mk_state "m0" [] [])), empty_world)
  /\ onnx2nnet "net.onnx" Sample.missing_weight no_options "" "" "" false
       empty_world =
     (Ok tt,
      mk_world
        [ConvertedModel "net.onnx"; ToModel "net.nnet";
         ShowInputMins (repeat float32_min 1);
         ShowInputMaxes (repeat float32_max 1)]
        [mk_call [Sample.W2] [Sample.B2]
           (repeat float32_min 1) (repeat float32_max 1)
           (repeat 0%float 2) (repeat 1%float 2) "net.nnet"]).
Proof. repeat split; vm_compute; reflexivity. Qed.

(** A Gemm whose weight name has no initializer raises at line 103. *)
Example gemm_missing_run :
  visit (Sample.one_io []) "y" Sample.start Sample.gemm_missing empty_world
  = (Raise (IndexError 103), empty_world).
Proof. reflexivity. Qed.

Lemma missing_weight_initializer_witness :
  visit Sample.missing_weight "y" Sample.start Sample.matmul_missing
    empty_world = (Ok (Continue (mk_state "m0" [] [])), empty_world).
Proof.
  apply (proj1 (missing_weight_initializer Sample.missing_weight "y"
                  Sample.start Sample.matmul_missing empty_world
                  eq_refl)
           "x" "nowhere" "m0" []).
  - reflexivity.
  - reflexivity.
  - reflexivity.
  - simpl. intros [H|[H|[H|[H|[H|[]]]]]]; discriminate.
Defined.

Lemma transB_is_ignored_witness :
  onnx2nnet "net.onnx" (Sample.gemm_transB 0) no_options "" "" "" false
    empty_world =
  onnx2nnet "net.onnx" (Sample.gemm_transB 1) no_options "" "" "" false
    empty_world.
Proof.
  apply transB_is_ignored.
  repeat split; simpl.
  repeat constructor; simpl. intros H. now destruct H.
Defined.

Lemma operand_order_invariance_witness :
  onnx2nnet "net.onnx"
    (with_nodes Sample.two_matmul
       ([] ++ swap_operands (mk_node "MatMul" ["x"; "W1"] ["m1"] [])
           :: tl (node Sample.two_matmul)))
    no_options "" "" "" false empty_world =
  onnx2nnet "net.onnx"
    (with_nodes Sample.two_matmul
       ([] ++ mk_node "MatMul" ["x"; "W1"] ["m1"] []
           :: tl (node Sample.two_matmul)))
    no_options "" "" "" false empty_world.
Proof.
  apply (operand_order_invariance Sample.two_matmul []
           (mk_node "MatMul" ["x"; "W1"] ["m1"] [])
           (tl (node Sample.two_matmul)) "x" "W1").
  - left. reflexivity.
  - reflexivity.
Defined.

Lemma default_normalization_witness :
  exists out,
    check_and_write "net.onnx" "net.nnet" "y" no_options
      (mk_state "y" [Sample.W1; Sample.W2] [Sample.B1; Sample.B2])
      empty_world =
    (Ok tt,
     mk_world out
       ([] ++
        [mk_call [Sample.W1; Sample.W2] [Sample.B1; Sample.B2]
           (repeat float32_min 2) (repeat float32_max 2)
           (repeat 0%float (2 + 1)) (repeat 1%float (2 + 1))
           "net.nnet"])).
Proof.
  apply (default_normalization "net.onnx" "net.nnet" "y"
           (mk_state "y" [Sample.W1; Sample.W2] [Sample.B1; Sample.B2])
           empty_world Sample.W1 [Sample.W2] 2 [3]).
  - repeat split; simpl; lia.
  - reflexivity.
  - reflexivity.
Defined.

Lemma appended_by_name_witness :
  exists new,
    visit Sample.twice "y" Sample.start
      (mk_node "MatMul" ["W1"; "x"] ["m"] []) empty_world =
    (Ok (check_output "y" (mk_state "m" ([] ++ new) [])), empty_world) /\
    length new = 2.
Proof.
  apply (proj1 (appended_by_name Sample.twice "y" Sample.start
                  (mk_node "MatMul" ["W1"; "x"] ["m"] []) "W1" "x" "m" []
                  empty_world eq_refl eq_refl eq_refl)).
  reflexivity.
Defined.

(** The output name is never reached: the two accumulated layers are
    dropped and nothing is written. *)
Example endpoint_mismatch_run :
  onnx2nnet "net.onnx" Sample.two_gemm no_options "" "" "z" false
    empty_world =
  (Ok tt, mk_world [NameMismatch "z" "y"; CouldNotWrite] []).
Proof. vm_compute. reflexivity. Qed.

(** Two declared graph inputs and no input name. *)
Example ambiguous_input_run :
  onnx2nnet "net.onnx"
    (mk_graph [] [] [mk_value_info "x1"; mk_value_info "x2"]
              [mk_value_info "y"])
    no_options "" "" "" false empty_world =
  (Raise (AssertionError 29), empty_world).
Proof. reflexivity. Qed.

(** * Further properties *)

(** ** What the walk does to the world *)

Lemma keeps_ret {A} (a : A) : keeps_files (ret a).
Proof. intros w r w' H. now inversion H. Qed.

Lemma keeps_raise {A} e : keeps_files (@raise A e).
Proof. intros w r w' H. now inversion H. Qed.

Lemma keeps_print m : keeps_files (print m).
Proof. intros w r w' H. now inversion H. Qed.

Lemma keeps_assert b line : keeps_files (py_assert b line).
Proof. destruct b; [apply keeps_ret|apply keeps_raise]. Qed.

Lemma keeps_item {A} (l : list A) i line : keeps_files (item l i line).
Proof.
  unfold item. destruct (nth_error l i); [apply keeps_ret|apply keeps_raise].
Qed.

Lemma keeps_bind {A B} (c : M A) (k : A -> M B) :
  keeps_files c -> (forall a, keeps_files (k a)) -> keeps_files (bind c k).
Proof.
  intros Hc Hk w r w' H. unfold bind in H.
  destruct (c w) as [[a|e] w1] eqn:E; apply Hc in E.
  - apply Hk in H. congruence.
  - inversion H. congruence.
Qed.

Ltac keeps :=
  repeat first
    [ apply keeps_ret | apply keeps_raise | apply keeps_print
    | apply keeps_assert | apply keeps_item
    | apply keeps_bind; [|intros ?]
    | match goal with
      | |- keeps_files (if ?b then _ else _) => destruct b
      end ].

Lemma visit_keeps_files graph outputName st nd :
  keeps_files (visit graph outputName st nd).
Proof. unfold visit. keeps. Qed.

Lemma scan_keeps_files graph outputName nodes :
  forall st, keeps_files (scan graph outputName nodes st).
Proof.
  induction nodes as [|nd nodes IH]; intros st; simpl.
  - apply keeps_ret.
  - apply keeps_bind; [apply visit_keeps_files|].
    intros [s|s]; [apply IH|apply keeps_ret].
Qed.

Lemma silent_ret {A} (a : A) : silent (ret a).
Proof. intros w r w' H. now inversion H. Qed.

Lemma silent_raise {A} e : silent (@raise A e).
Proof. intros w r w' H. now inversion H. Qed.

Lemma silent_bind {A B} (c : M A) (k : A -> M B) :
  silent c -> (forall a, silent (k a)) -> silent (bind c k).
Proof.
  intros Hc Hk w r w' H. unfold bind in H.
  destruct (c w) as [[a|e] w1] eqn:E; apply Hc in E; subst w1.
  - now apply Hk in H.
  - now inversion H.
Qed.

Lemma silent_assert b line : silent (py_assert b line).
Proof. destruct b; [apply silent_ret|apply silent_raise]. Qed.

Lemma silent_item {A} (l : list A) i line : silent (item l i line).
Proof.
  unfold item.
  destruct (nth_error l i); [apply silent_ret|apply silent_raise].
Qed.

Lemma default_name_silent name declared line :
  silent (default_name name declared line).
Proof.
  unfold default_name. destruct (name =? "")%string; [|apply silent_ret].
  apply silent_bind; [apply silent_assert|intros _].
  apply silent_bind; [apply silent_item|intros v]. apply silent_ret.
Qed.

Lemma maybe_transpose_run tr st w :
  maybe_transpose tr st w =
  (Ok (mk_state (inputName st)
         (if tr then map transpose (weights st) else weights st)
         (biases st)),
   mk_world (stdout w ++ (if tr then [TakingTranspose] else []))
            (written w)).
Proof.
  destruct tr, st, w; unfold maybe_transpose, bind, print, ret; simpl.
  - reflexivity.
  - now rewrite app_nil_r.
Qed.

(** The function in terms of its resolved names. *)
Lemma onnx2nnet_resolved
    onnxFile graph opts nnetFile inName outName tr inN outN w :
  resolves inName (graph_input graph) 29 inN ->
  resolves outName (graph_output graph) 32 outN ->
  onnx2nnet onnxFile graph opts nnetFile inName outName tr w =
  bind (walk graph inN outN)
       (fun st =>
          bind (maybe_transpose tr st)
               (check_and_write onnxFile
                  (default_nnetFile onnxFile nnetFile) outN opts)) w.
Proof.
  intros Hi Ho. unfold onnx2nnet.
  now rewrite (bind_ok _ _ _ _ _ (Hi w)), (bind_ok _ _ _ _ _ (Ho w)).
Qed.

Lemma check_and_write_outcome onnxFile nnetFile outputName opts st w r w' :
  check_and_write onnxFile nnetFile outputName opts st w = (r, w') ->
  written w' = written w \/
  (r = Ok tt /\ outputName = inputName st /\
   exists c, written w' = written w ++ [c] /\
             call_weights c = weights st /\ call_biases c = biases st /\
             call_file c = nnetFile /\
             0 < length (weights st) /\
             length (weights st) = length (biases st) /\
             exists W Ws k dims,
               weights st = W :: Ws /\ shape W = k :: dims /\
               call_inputMins c =
                 or_default (inputMins opts) (repeat float32_min k) /\
               call_inputMaxes c =
                 or_default (inputMaxes opts) (repeat float32_max k) /\
               call_means c =
                 or_default (means opts) (repeat 0%float (k + 1)) /\
               call_ranges c =
                 or_default (ranges opts) (repeat 1%float (k + 1))).
Proof.
  intros H. destruct (extracted outputName st) eqn:He.
  - pose proof (proj1 (extracted_iff _ _) He) as (Hname & Hpos & Hlen).
    destruct (weights st) as [|W Ws] eqn:HW; [simpl in Hpos; lia|].
    destruct (shape W) as [|k dims] eqn:Hs.
    + rewrite (check_and_write_scalar _ _ _ _ _ _ _ _ He HW Hs) in H.
      inversion H. now left.
    + rewrite (check_and_write_complete _ _ _ _ _ _ _ _ _ _ He HW Hs)
        in H.
      inversion H. right. split; [reflexivity|]. split; [exact Hname|].
      eexists. split; [reflexivity|]. simpl. rewrite HW.
      repeat split; try assumption.
      exists W, Ws, k, dims. repeat split. exact Hs.
  - rewrite (check_and_write_incomplete _ _ _ _ _ _ He) in H.
    inversion H. now left.
Qed.

Lemma onnx2nnet_outcome
    onnxFile graph opts nnetFile inName outName tr w r w' :
  onnx2nnet onnxFile graph opts nnetFile inName outName tr w = (r, w') ->
  written w' = written w \/
  (r = Ok tt /\
   exists c, written w' = written w ++ [c] /\
             well_formed_call onnxFile nnetFile opts c).
Proof.
  unfold onnx2nnet, bind. intros H.
  destruct (default_name inName (graph_input graph) 29 w)
    as [[i|e] w1] eqn:H1; apply default_name_silent in H1; subst w1;
    [|inversion H; now left].
  destruct (default_name outName (graph_output graph) 32 w)
    as [[o|e] w2] eqn:H2; apply default_name_silent in H2; subst w2;
    [|inversion H; now left].
  destruct (walk graph i o w) as [[st|e] w3] eqn:H3;
    apply scan_keeps_files in H3; [|inversion H; left; congruence].
  rewrite maybe_transpose_run in H.
  apply check_and_write_outcome in H. simpl in H. rewrite H3 in H.
  destruct H as [H|(Hr & Hc & c & Hw & Hcw & Hcb & Hf & Hpos & Hlen
                    & W & Ws & k & dims
                    & HW & Hs & Hmin & Hmax & Hmu & Hrg)]; [now left|].
  right. split; [exact Hr|]. exists c. split; [exact Hw|].
  unfold well_formed_call. rewrite Hcw, Hcb, Hf.
  repeat split; try assumption.
  exists W, Ws, k, dims. repeat split; assumption.
Qed.

(** ** Consumed nodes *)





(** A node that does not list the cursor leaves no trace. *)
Lemma scan_skip graph outputName pre nd post st0 st w :
  reaches graph outputName pre st0 st ->
  str_in (inputName st) (input nd) = false ->
  scan graph outputName (pre ++ nd :: post) st0 w =
  scan graph outputName (pre ++ post) st0 w.
Proof.
  intros Hreach Hmem. rewrite !(scan_reaches _ _ _ _ _ _ _ Hreach).
  simpl. now rewrite (bind_ok _ _ _ _ _ (visit_skip _ _ _ _ w Hmem)).
Qed.

Lemma reaches_snoc graph outputName pre nd st0 st st' :
  reaches graph outputName pre st0 st ->
  (forall w, visit graph outputName st nd w = (Ok (Continue st'), w)) ->
  reaches graph outputName (pre ++ [nd]) st0 st'.
Proof.
  induction 1 as [|p pre s0 s1 s2 Hv _ IH]; intros Hnd; simpl.
  - eapply reaches_cons; [exact Hnd|apply reaches_nil].
  - eapply reaches_cons; [exact Hv|]. now apply IH.
Qed.

(** Two graphs with the same declared tensors and the same walk from the
    resolved names are converted alike. *)
Lemma onnx2nnet_same_walk
    g h onnxFile opts nnetFile inName outName tr inN outN w :
  graph_input g = graph_input h ->
  graph_output g = graph_output h ->
  resolves inName (graph_input h) 29 inN ->
  resolves outName (graph_output h) 32 outN ->
  walk g inN outN w = walk h inN outN w ->
  onnx2nnet onnxFile g opts nnetFile inName outName tr w =
  onnx2nnet onnxFile h opts nnetFile inName outName tr w.
Proof.
  intros Hi Ho Hri Hro Hw.
  rewrite (onnx2nnet_resolved _ g _ _ _ _ _ inN outN),
          (onnx2nnet_resolved _ h _ _ _ _ _ inN outN);
    try assumption; try (rewrite Hi; assumption);
    try (rewrite Ho; assumption).
  unfold bind. now rewrite Hw.
Qed.

Lemma walk_raise_propagates
    onnxFile graph opts nnetFile inName outName tr inN outN w e w' :
  resolves inName (graph_input graph) 29 inN ->
  resolves outName (graph_output graph) 32 outN ->
  walk graph inN outN w = (Raise e, w') ->
  onnx2nnet onnxFile graph opts nnetFile inName outName tr w =
  (Raise e, w').
Proof.
  intros Hi Ho Hw. rewrite (onnx2nnet_resolved _ _ _ _ _ _ _ inN outN)
    by assumption.
  now apply bind_raise.
Qed.

Lemma walk_raises_at graph inN outN pre nd post st w e :
  node graph = pre ++ nd :: post ->
  reaches graph outN pre (mk_state inN [] []) st ->
  visit graph outN st nd w = (Raise e, w) ->
  walk graph inN outN w = (Raise e, w).
Proof.
  intros Hn Hreach Hv. unfold walk. rewrite Hn.
  rewrite (scan_reaches _ _ _ _ _ _ _ Hreach). simpl.
  now apply bind_raise.
Qed.





(** X1.  Whatever the arguments, a run calls the writer at most once; the
    call has non-empty weight and bias lists of one length, the given
    or derived file name, and bounds that are the caller's or sized by
    the first weight.  A run that raises has written nothing. *)
Theorem writes_at_most_once
    onnxFile graph opts nnetFile inName outName tr w :
  (written
     (snd (onnx2nnet onnxFile graph opts nnetFile inName outName tr w))
   = written w
   \/ (fst (onnx2nnet onnxFile graph opts nnetFile inName outName tr w)
       = Ok tt /\
       exists c,
         written
           (snd (onnx2nnet onnxFile graph opts nnetFile inName outName tr w))
         = written w ++ [c] /\
         well_formed_call onnxFile nnetFile opts c))
  /\ (forall e,
        fst (onnx2nnet onnxFile graph opts nnetFile inName outName tr w)
        = Raise e ->
        written
          (snd (onnx2nnet onnxFile graph opts nnetFile inName outName tr w))
        = written w).
Proof.
  destruct (onnx2nnet onnxFile graph opts nnetFile inName outName tr w)
    as [r w'] eqn:H.
  apply onnx2nnet_outcome in H. simpl. split; [exact H|].
  intros e He. destruct H as [H|(Hr & _)]; [exact H|congruence].
Qed.


(** X3.  A node that does not list the cursor when the loop comes to it
    is passed over for good, whatever its operator: the conversion is
    that of the graph without it. *)
Theorem off_chain_node_ignored
    graph pre nd post st
    onnxFile opts nnetFile inName outName tr inN outN w :
  resolves inName (graph_input graph) 29 inN ->
  resolves outName (graph_output graph) 32 outN ->
  reaches graph outN pre (mk_state inN [] []) st ->
  str_in (inputName st) (input nd) = false ->
  onnx2nnet onnxFile (with_nodes graph (pre ++ nd :: post))
    opts nnetFile inName outName tr w =
  onnx2nnet onnxFile (with_nodes graph (pre ++ post))
    opts nnetFile inName outName tr w.
Proof.
  intros Hi Ho Hreach Hmem.
  apply (onnx2nnet_same_walk _ _ _ _ _ _ _ _ inN outN);
    try reflexivity; try assumption.
  unfold walk. simpl. rewrite !scan_with_nodes.
  now apply (scan_skip _ _ _ _ _ _ st).
Qed.


(** ** Malformed nodes *)

Lemma visit_wrong_arity graph outputName st nd w :
  str_in (inputName st) (input nd) = true ->
  (op_type nd = "MatMul" -> length (input nd) <> 2 ->
   visit graph outputName st nd w = (Raise (AssertionError 53), w))
  /\ (op_type nd = "Add" -> length (input nd) <> 2 ->
      visit graph outputName st nd w = (Raise (AssertionError 68), w))
  /\ (op_type nd = "Gemm" -> length (input nd) <> 3 ->
      visit graph outputName st nd w = (Raise (AssertionError 83), w)).
Proof.
  intros Hmem.
  repeat split; intros Hop Hlen; apply Nat.eqb_neq in Hlen;
    unfold visit; rewrite Hmem, Hop; simpl; unfold bind, py_assert;
    now rewrite Hlen.
Qed.

Lemma visit_no_output graph outputName st nd w :
  str_in (inputName st) (input nd) = true ->
  output nd = [] ->
  (op_type nd = "MatMul" -> length (input nd) = 2 ->
   visit graph outputName st nd w = (Raise (IndexError 65), w))
  /\ (op_type nd = "Add" -> length (input nd) = 2 ->
      visit graph outputName st nd w = (Raise (IndexError 80), w))
  /\ (op_type nd = "Relu" ->
      visit graph outputName st nd w = (Raise (IndexError 121), w)).
Proof.
  intros Hmem Hout. repeat split.
  - intros Hop Hlen. destruct (input nd) as [|a [|b [|c l]]] eqn:Hin;
      try discriminate.
    unfold visit, other_index. rewrite Hin, Hmem, Hop, Hout. simpl.
    destruct (a =? inputName st)%string; reflexivity.
  - intros Hop Hlen. destruct (input nd) as [|a [|b [|c l]]] eqn:Hin;
      try discriminate.
    unfold visit, other_index. rewrite Hin, Hmem, Hop, Hout. simpl.
    destruct (a =? inputName st)%string; reflexivity.
  - intros Hop. unfold visit. rewrite Hmem, Hop, Hout. reflexivity.
Qed.

(** X5.  A MatMul or Add node on the chain with other than two inputs,
    or a Gemm node on the chain with other than three, makes the
    conversion raise the assertion error of line 53, 68 or 83; nothing
    is printed or written. *)
Theorem wrong_arity_raises
    graph pre nd post st
    onnxFile opts nnetFile inName outName tr inN outN w :
  resolves inName (graph_input graph) 29 inN ->
  resolves outName (graph_output graph) 32 outN ->
  node graph = pre ++ nd :: post ->
  reaches graph outN pre (mk_state inN [] []) st ->
  str_in (inputName st) (input nd) = true ->
  (op_type nd = "MatMul" -> length (input nd) <> 2 ->
   onnx2nnet onnxFile graph opts nnetFile inName outName tr w =
   (Raise (AssertionError 53), w))
  /\ (op_type nd = "Add" -> length (input nd) <> 2 ->
      onnx2nnet onnxFile graph opts nnetFile inName outName tr w =
      (Raise (AssertionError 68), w))
  /\ (op_type nd = "Gemm" -> length (input nd) <> 3 ->
      onnx2nnet onnxFile graph opts nnetFile inName outName tr w =
      (Raise (AssertionError 83), w)).
Proof.
  intros Hi Ho Hn Hreach Hmem.
  destruct (visit_wrong_arity graph outN st nd w Hmem) as (H1 & H2 & H3).
  repeat split; intros Hop Hlen;
    apply (walk_raise_propagates _ _ _ _ _ _ _ inN outN); try assumption;
    apply (walk_raises_at _ _ _ pre nd post st); auto.
Qed.

(** X6.  A MatMul, Add or Relu node on the chain that has no output
    makes the conversion raise the index error of line 65, 80 or 121;
    nothing is printed or written. *)
Theorem no_output_raises
    graph pre nd post st
    onnxFile opts nnetFile inName outName tr inN outN w :
  resolves inName (graph_input graph) 29 inN ->
  resolves outName (graph_output graph) 32 outN ->
  node graph = pre ++ nd :: post ->
  reaches graph outN pre (mk_state inN [] []) st ->
  str_in (inputName st) (input nd) = true ->
  output nd = [] ->
  (op_type nd = "MatMul" -> length (input nd) = 2 ->
   onnx2nnet onnxFile graph opts nnetFile inName outName tr w =
   (Raise (IndexError 65), w))
  /\ (op_type nd = "Add" -> length (input nd) = 2 ->
      onnx2nnet onnxFile graph opts nnetFile inName outName tr w =
      (Raise (IndexError 80), w))
  /\ (op_type nd = "Relu" ->
      onnx2nnet onnxFile graph opts nnetFile inName outName tr w =
      (Raise (IndexError 121), w)).
Proof.
  intros Hi Ho Hn Hreach Hmem Hout.
  destruct (visit_no_output graph outN st nd w Hmem Hout) as (H1 & H2 & H3).
  repeat split; intros;
    apply (walk_raise_propagates _ _ _ _ _ _ _ inN outN); try assumption;
    apply (walk_raises_at _ _ _ pre nd post st); auto.
Qed.

(** ** The derived file name *)

Lemma substring_prefix (base rest : string) :
  substring 0 (String.length base) (base ++ rest)%string = base.
Proof.
  induction base as [|c base IH]; simpl.
  - now destruct rest.
  - now rewrite IH.
Qed.

Lemma string_length_append (s t : string) :
  String.length (s ++ t)%string = String.length s + String.length t.
Proof. induction s as [|c s IH]; simpl; [reflexivity|now rewrite IH]. Qed.

Lemma substring_zero (s : string) : substring 0 0 s = "".
Proof. now destruct s. Qed.

(** X7.  With no output path given, the path is the model path with its
    last four characters, whatever they are, replaced by [nnet]; a model
    path of at most four characters gives [nnet]; a non-empty output
    path is kept. *)
Theorem default_nnetFile_cases :
  (forall base ext,
     String.length ext = 4 ->
     default_nnetFile (base ++ ext)%string "" = (base ++ "nnet")%string)
  /\ (forall onnxFile,
        String.length onnxFile <= 4 ->
        default_nnetFile onnxFile "" = "nnet")
  /\ (forall onnxFile nnetFile,
        nnetFile <> "" -> default_nnetFile onnxFile nnetFile = nnetFile).
Proof.
  repeat split.
  - intros base ext H. unfold default_nnetFile. simpl.
    rewrite string_length_append, H, Nat.add_sub.
    now rewrite substring_prefix.
  - intros onnxFile H. unfold default_nnetFile. simpl.
    replace (String.length onnxFile - 4) with 0 by lia.
    now rewrite substring_zero.
  - intros onnxFile nnetFile H. unfold default_nnetFile.
    apply String.eqb_neq in H. now rewrite H.
Qed.

(** ** Attributes, by their last occurrence *)

Lemma read_attrs_snoc attrs x :
  read_attrs (attrs ++ [x]) = read_attr (read_attrs attrs) x.
Proof. unfold read_attrs. now rewrite fold_left_app. Qed.

Lemma last_attr_snoc name attrs x :
  last_attr name (attrs ++ [x]) =
  if (attr_name x =? name)%string then Some x else last_attr name attrs.
Proof. unfold last_attr. now rewrite rev_unit. Qed.

(** X8.  Each Gemm attribute is read from the last attribute of its name
    in the node's list and keeps its default when there is none; an
    integer other than zero counts as true; attributes of other names
    are not read. *)
Theorem read_attrs_last attrs :
  alpha (read_attrs attrs) =
    match last_attr "alpha" attrs with
    | Some a => attr_f a | None => 1%float end
  /\ beta (read_attrs attrs) =
    match last_attr "beta" attrs with
    | Some a => attr_f a | None => 1%float end
  /\ transA (read_attrs attrs) =
    match last_attr "transA" attrs with
    | Some a => negb (attr_i a =? 0)%Z | None => false end
  /\ transB (read_attrs attrs) =
    match last_attr "transB" attrs with
    | Some a => negb (attr_i a =? 0)%Z | None => false end.
Proof.
  induction attrs as [|x attrs IH] using rev_ind.
  - repeat split.
  - destruct IH as (Ha & Hb & Hta & Htb).
    rewrite read_attrs_snoc, !last_attr_snoc. unfold read_attr.
    destruct (String.eqb_spec (attr_name x) "alpha") as [E|_];
      [rewrite ?E; simpl; auto|].
    destruct (String.eqb_spec (attr_name x) "beta") as [E|_];
      [rewrite ?E; simpl; auto|].
    destruct (String.eqb_spec (attr_name x) "transA") as [E|_];
      [rewrite ?E; simpl; auto|].
    destruct (String.eqb_spec (attr_name x) "transB") as [E|_];
      [rewrite ?E; simpl; auto|].
    auto.
Qed.

(** ** Complete chains *)

Lemma onnx2nnet_complete
    onnxFile graph opts nnetFile inName outName (tr : bool) inN outN st
    w w1 (W : ndarray) (Ws : list ndarray) k dims :
  resolves inName (graph_input graph) 29 inN ->
  resolves outName (graph_output graph) 32 outN ->
  walk graph inN outN w = (Ok st, w1) ->
  chain_complete outN st ->
  (if tr then map transpose (weights st) else weights st) = W :: Ws ->
  shape W = k :: dims ->
  onnx2nnet onnxFile graph opts nnetFile inName outName tr w =
  (Ok tt,
   mk_world
     ((stdout w1 ++ (if tr then [TakingTranspose] else [])) ++
      [ConvertedModel onnxFile;
       ToModel (default_nnetFile onnxFile nnetFile);
       ShowInputMins (or_default (inputMins opts) (repeat float32_min k));
       ShowInputMaxes (or_default (inputMaxes opts) (repeat float32_max k))])
     (written w ++
      [mk_call (W :: Ws) (biases st)
         (or_default (inputMins opts) (repeat float32_min k))
         (or_default (inputMaxes opts) (repeat float32_max k))
         (or_default (means opts) (repeat 0%float (k + 1)))
         (or_default (ranges opts) (repeat 1%float (k + 1)))
         (default_nnetFile onnxFile nnetFile)])).
Proof.
  intros Hi Ho Hw (Hname & Hpos & Hlen) HW Hs.
  rewrite (onnx2nnet_resolved _ _ _ _ _ _ _ inN outN) by assumption.
  rewrite (bind_ok _ _ _ _ _ Hw).
  assert (Hwr : written w1 = written w)
    by (apply scan_keeps_files in Hw; exact Hw).
  unfold bind. rewrite maybe_transpose_run, HW.
  erewrite check_and_write_complete; simpl; try reflexivity;
    try exact Hs.
  - now rewrite Hwr.
  - apply extracted_iff. repeat split; simpl.
    + exact Hname.
    + lia.
    + rewrite <- Hlen. apply (f_equal (@length ndarray)) in HW.
      simpl in HW. rewrite <- HW. destruct tr; [apply length_map|].
      reflexivity.
Qed.

(** X9.  When the walk ends at the output name with at least one weight
    and as many biases, and the first weight has leading dimension [k],
    a run without [take_transpose] prints its four lines and calls the
    writer once with the layers as walked; each of the four optional
    arrays reaches the writer as the caller gave it, whatever its
    length, and is defaulted from [k] only when omitted. *)
Theorem conversion_result
    onnxFile graph opts nnetFile inName outName inN outN st w w1
    W Ws k dims :
  resolves inName (graph_input graph) 29 inN ->
  resolves outName (graph_output graph) 32 outN ->
  walk graph inN outN w = (Ok st, w1) ->
  chain_complete outN st ->
  weights st = W :: Ws ->
  shape W = k :: dims ->
  onnx2nnet onnxFile graph opts nnetFile inName outName false w =
  (Ok tt,
   mk_world
     (stdout w1 ++
      [ConvertedModel onnxFile;
       ToModel (default_nnetFile onnxFile nnetFile);
       ShowInputMins (or_default (inputMins opts) (repeat float32_min k));
       ShowInputMaxes (or_default (inputMaxes opts) (repeat float32_max k))])
     (written w ++
      [mk_call (weights st) (biases st)
         (or_default (inputMins opts) (repeat float32_min k))
         (or_default (inputMaxes opts) (repeat float32_max k))
         (or_default (means opts) (repeat 0%float (k + 1)))
         (or_default (ranges opts) (repeat 1%float (k + 1)))
         (default_nnetFile onnxFile nnetFile)]))
  /\ (forall mins maxes mu rg,
        opts = mk_options (Some mins) (Some maxes) (Some mu) (Some rg) ->
        exists out,
          onnx2nnet onnxFile graph opts nnetFile inName outName false w =
          (Ok tt,
           mk_world out
             (written w ++
              [mk_call (weights st) (biases st) mins maxes mu rg
                 (default_nnetFile onnxFile nnetFile)]))).
Proof.
  intros Hi Ho Hw Hc HW Hs.
  pose proof (onnx2nnet_complete onnxFile graph opts nnetFile inName outName
                false inN outN st w w1 W Ws k dims Hi Ho Hw Hc HW Hs) as H.
  rewrite app_nil_r, <- HW in H. split; [exact H|].
  intros mins maxes mu rg Hopts. rewrite H, Hopts. simpl.
  eexists. reflexivity.
Qed.

(** X10.  With [take_transpose] every weight handed to the writer is the
    transpose of the walked one and the biases are as walked; the
    defaults are sized by the last dimension of the first walked
    weight. *)
Theorem take_transpose_result
    onnxFile graph nnetFile inName outName inN outN st w w1
    W Ws dims k :
  resolves inName (graph_input graph) 29 inN ->
  resolves outName (graph_output graph) 32 outN ->
  walk graph inN outN w = (Ok st, w1) ->
  chain_complete outN st ->
  weights st = W :: Ws ->
  shape W = dims ++ [k] ->
  onnx2nnet onnxFile graph no_options nnetFile inName outName true w =
  (Ok tt,
   mk_world
     (stdout w1 ++
      [TakingTranspose; ConvertedModel onnxFile;
       ToModel (default_nnetFile onnxFile nnetFile);
       ShowInputMins (repeat float32_min k);
       ShowInputMaxes (repeat float32_max k)])
     (written w ++
      [mk_call (map transpose (weights st)) (biases st)
         (repeat float32_min k) (repeat float32_max k)
         (repeat 0%float (k + 1)) (repeat 1%float (k + 1))
         (default_nnetFile onnxFile nnetFile)])).
Proof.
  intros Hi Ho Hw Hc HW Hs.
  rewrite (onnx2nnet_complete onnxFile graph no_options nnetFile inName
             outName true inN outN st w w1 (transpose W) (map transpose Ws)
             k (rev dims) Hi Ho Hw Hc).
  - rewrite HW, <- app_assoc. reflexivity.
  - now rewrite HW.
  - now rewrite shape_transpose, Hs, rev_unit.
Qed.

(** ** Transposing twice *)

Lemma length_data_transpose a :
  length (data (transpose a)) = length (data a).
Proof. unfold transpose. simpl. now rewrite length_map, length_seq. Qed.

(** X11.  Transposing a matrix twice gives the matrix back, so the
    transposition of [transA] and that of [take_transpose] undo each
    other on a two-dimensional weight. *)
Theorem transpose_twice a r c :
  is_matrix a r c -> transpose (transpose a) = a.
Proof.
  destruct a as [sh d]. intros (Hsh & Hlen). simpl in Hsh, Hlen. subst sh.
  set (t := transpose (mk_ndarray [r; c] d)).
  assert (Ht : t = mk_ndarray [c; r] (data t)) by reflexivity.
  assert (Hlt : length (data t) = c * r)
    by (subst t; rewrite length_data_transpose; simpl; lia).
  assert (Hshape : shape (transpose t) = [r; c]) by reflexivity.
  assert (Hdata : data (transpose t) = d).
  { apply (nth_ext _ _ 0%float 0%float).
    - rewrite length_data_transpose. lia.
    - intros k Hk. rewrite length_data_transpose, Hlt in Hk.
      assert (Hc : 0 < c) by nia.
      assert (Hj : k mod c < c) by (apply Nat.mod_upper_bound; lia).
      assert (Hi : k / c < r)
        by (apply Nat.Div0.div_lt_upper_bound; lia).
      assert (E : k = k / c * c + k mod c)
        by (pose proof (Nat.div_mod_eq k c); lia).
      set (i := k / c) in *. set (j := k mod c) in *.
      clearbody i j. subst k.
      etransitivity.
      + exact (proj2 (transpose_matrix c r (data t) j i Hlt Hj Hi)).
      + apply (transpose_matrix r c d i j); [lia|exact Hi|exact Hj]. }
  destruct (transpose t) as [sh' d']. simpl in Hshape, Hdata.
  now subst.
Qed.

(** ** Where the cursor comes from *)

Lemma ensures_ret {A} (a : A) (P : A -> Prop) : P a -> ensures (ret a) P.
Proof. intros H w b w' E. inversion E. now subst. Qed.

Lemma ensures_bind {A B} (c : M A) (k : A -> M B) (Q : A -> Prop)
    (P : B -> Prop) :
  ensures c Q -> (forall a, Q a -> ensures (k a) P) -> ensures (bind c k) P.
Proof.
  intros Hc Hk w b w' E. unfold bind in E.
  destruct (c w) as [[a|e] w1] eqn:Ec; [|discriminate].
  exact (Hk a (Hc _ _ _ Ec) _ _ _ E).
Qed.

Lemma ensures_true {A} (c : M A) : ensures c (fun _ => True).
Proof. intros w a w' _. exact I. Qed.

Lemma ensures_item {A} (l : list A) i line :
  ensures (item l i line) (fun a => nth_error l i = Some a).
Proof.
  intros w a w' E. unfold item in E.
  destruct (nth_error l i); inversion E. now subst.
Qed.

Lemma produced_moved nodes nd outputName out ws bs :
  In nd nodes -> nth_error (output nd) 0 = Some out ->
  produced nodes (state_of (check_output outputName (mk_state out ws bs))).
Proof.
  intros Hin Hout. rewrite state_of_check_output. right.
  destruct (output nd) as [|o os] eqn:E; [discriminate|].
  inversion Hout. subst o. now exists nd, os.
Qed.

Lemma visit_produced graph outputName nodes st nd :
  In nd nodes -> produced nodes st ->
  ensures (visit graph outputName st nd)
          (fun f => produced nodes (state_of f)).
Proof.
  intros Hin Hst. unfold visit.
  destruct (str_in (inputName st) (input nd));
    [|now apply ensures_ret].
  destruct (op_type nd =? "MatMul")%string.
  { eapply ensures_bind; [apply ensures_true|intros ? _].
    eapply ensures_bind; [apply ensures_true|intros ? _].
    eapply ensures_bind; [apply ensures_item|intros ? ?].
    apply ensures_ret. eapply produced_moved; eassumption. }
  destruct (op_type nd =? "Add")%string.
  { eapply ensures_bind; [apply ensures_true|intros ? _].
    eapply ensures_bind; [apply ensures_true|intros ? _].
    eapply ensures_bind; [apply ensures_item|intros ? ?].
    apply ensures_ret. eapply produced_moved; eassumption. }
  destruct (op_type nd =? "Gemm")%string.
  { eapply ensures_bind; [apply ensures_true|intros ? _].
    eapply ensures_bind; [apply ensures_true|intros ? _].
    eapply ensures_bind; [apply ensures_true|intros ? _].
    eapply ensures_bind; [apply ensures_true|intros ? _].
    eapply ensures_bind; [apply ensures_true|intros ? _].
    eapply ensures_bind; [apply ensures_item|intros ? ?].
    apply ensures_ret. eapply produced_moved; eassumption. }
  destruct (op_type nd =? "Relu")%string.
  { eapply ensures_bind; [apply ensures_item|intros ? ?].
    apply ensures_ret. eapply produced_moved; eassumption. }
  eapply ensures_bind; [apply ensures_true|intros ? _].
  apply ensures_ret. now left.
Qed.

Lemma scan_produced graph outputName nodes l :
  (forall nd, In nd l -> In nd nodes) ->
  forall st, produced nodes st ->
  ensures (scan graph outputName l st) (produced nodes).
Proof.
  induction l as [|nd l IH]; intros Hsub st Hst; simpl.
  - now apply ensures_ret.
  - eapply ensures_bind.
    + apply (visit_produced graph outputName nodes st nd);
        [apply Hsub; now left|exact Hst].
    + intros [s|s] Hs; simpl in Hs.
      * apply IH; [|exact Hs]. intros x Hx. apply Hsub. now right.
      * now apply ensures_ret.
Qed.

(** X12.  A file is written only if some node of the graph has the
    output name as its first output: when none has, the run writes
    nothing, whatever else the graph holds. *)
Theorem writes_only_produced_output
    onnxFile graph opts nnetFile inName outName tr inN outN w :
  resolves inName (graph_input graph) 29 inN ->
  resolves outName (graph_output graph) 32 outN ->
  (forall nd os, In nd (node graph) -> output nd <> outN :: os) ->
  written (snd (onnx2nnet onnxFile graph opts nnetFile inName outName tr w))
  = written w.
Proof.
  intros Hi Ho Hnone.
  rewrite (onnx2nnet_resolved _ _ _ _ _ _ _ inN outN) by assumption.
  unfold bind.
  destruct (walk graph inN outN w) as [[st|e] w1] eqn:Hw.
  - pose proof (scan_keeps_files _ _ _ _ _ _ _ Hw) as Hw1.
    assert (Hp : produced (node graph) st).
    { apply (scan_produced graph outN (node graph) (node graph)
               (fun _ H => H) (mk_state inN [] [])
               (or_introl eq_refl) _ _ _ Hw). }
    rewrite maybe_transpose_run.
    destruct (check_and_write onnxFile (default_nnetFile onnxFile nnetFile)
                outN opts _ _) as [r w2] eqn:Hc.
    apply check_and_write_outcome in Hc. simpl in Hc. simpl.
    destruct Hc as [Hc|(_ & Hname & _ & _ & _ & _ & _ & Hpos & _)];
      [congruence|].
    exfalso. destruct Hp as [Hnil|(nd & os & Hin & Hout)].
    + rewrite Hnil in Hpos. destruct tr; simpl in Hpos; lia.
    + apply (Hnone nd os Hin). now rewrite Hname.
  - simpl. apply (scan_keeps_files _ _ _ _ _ _ _ Hw).
Qed.

(** ** The script *)

(** X13.  Run with no argument, the script prints its usage line and
    leaves the world as it is.  Run with a model path, it prints the
    warning and converts with defaults only: any file written has the
    bounds and normalization sized by the first weight, and is named by
    the second argument if there is a non-empty one, by the model path
    otherwise; arguments after the second are not read. *)
Theorem main_outcome load argv w :
  (length argv <= 1 -> main load argv w = ([NeedOnnxFile], (Ok tt, w)))
  /\ (forall script onnxFile rest,
        argv = script :: onnxFile :: rest ->
        main load argv w =
        ([UsingDefaults],
         onnx2nnet onnxFile (load onnxFile) no_options (hd "" rest)
                   "" "" false w)
        /\ (written (snd (snd (main load argv w))) = written w
            \/ exists c,
                 written (snd (snd (main load argv w))) = written w ++ [c]
                 /\ well_formed_call onnxFile (hd "" rest) no_options c)).
Proof.
  split.
  - intros H. destruct argv as [|a [|b l]]; try reflexivity.
    simpl in H. lia.
  - intros script onnxFile rest ->.
    assert (E : main load (script :: onnxFile :: rest) w =
                ([UsingDefaults],
                 onnx2nnet onnxFile (load onnxFile) no_options (hd "" rest)
                           "" "" false w))
      by (destruct rest; reflexivity).
    split; [exact E|]. rewrite E. simpl.
    destruct (onnx2nnet onnxFile (load onnxFile) no_options (hd "" rest)
                "" "" false w) as [r w'] eqn:H.
    apply onnx2nnet_outcome in H. simpl.
    destruct H as [H|(_ & c & Hc & Hwf)]; [now left|].
    right. now exists c.
Qed.

(** * Concrete runs of the further properties *)


Lemma two_gemm_reaches :
  reaches (Sample.one_io []) "y" [Sample.gemm1; Sample.relu1]
          Sample.start (mk_state "r" [Sample.W1] [Sample.B1]).
Proof.
  eapply reaches_cons; [intros w; reflexivity|].
  eapply reaches_cons; [intros w; reflexivity|].
  apply reaches_nil.
Defined.


Lemma off_chain_node_ignored_witness :
  onnx2nnet "net.onnx"
    (with_nodes (Sample.one_io [])
       ([Sample.gemm1; Sample.relu1] ++ Sample.conv_aside :: [Sample.gemm2]))
    no_options "" "" "" false empty_world =
  onnx2nnet "net.onnx"
    (with_nodes (Sample.one_io [])
       ([Sample.gemm1; Sample.relu1] ++ [Sample.gemm2]))
    no_options "" "" "" false empty_world.
Proof.
  apply (off_chain_node_ignored (Sample.one_io [])
           [Sample.gemm1; Sample.relu1] Sample.conv_aside [Sample.gemm2]
           (mk_state "r" [Sample.W1] [Sample.B1])
           "net.onnx" no_options "" "" "" false "x" "y" empty_world).
  - intros w. reflexivity.
  - intros w. reflexivity.
  - exact two_gemm_reaches.
  - reflexivity.
Defined.


Lemma wrong_arity_raises_witness :
  onnx2nnet "net.onnx" (Sample.one_io [Sample.matmul_unary]) no_options
    "" "" "" false empty_world = (Raise (AssertionError 53), empty_world).
Proof.
  apply (wrong_arity_raises (Sample.one_io [Sample.matmul_unary])
           [] Sample.matmul_unary [] Sample.start
           "net.onnx" no_options "" "" "" false "x" "y" empty_world).
  - intros w. reflexivity.
  - intros w. reflexivity.
  - reflexivity.
  - apply reaches_nil.
  - reflexivity.
  - reflexivity.
  - discriminate.
Defined.

Lemma no_output_raises_witness :
  onnx2nnet "net.onnx" (Sample.one_io [Sample.relu_blind]) no_options
    "" "" "" false empty_world = (Raise (IndexError 121), empty_world).
Proof.
  apply (no_output_raises (Sample.one_io [Sample.relu_blind])
           [] Sample.relu_blind [] Sample.start
           "net.onnx" no_options "" "" "" false "x" "y" empty_world).
  - intros w. reflexivity.
  - intros w. reflexivity.
  - reflexivity.
  - apply reaches_nil.
  - reflexivity.
  - reflexivity.
  - reflexivity.
Defined.

Lemma conversion_result_witness :
  exists out,
    onnx2nnet "net.onnx" Sample.two_gemm Sample.odd_options "" "" "" false
      empty_world =
    (Ok tt,
     mk_world out
       (written empty_world ++
        [mk_call [Sample.W1; Sample.W2] [Sample.B1; Sample.B2]
           [0%float] [] [1%float; 2%float] []
           (default_nnetFile "net.onnx" "")])).
Proof.
  apply (proj2 (conversion_result "net.onnx" Sample.two_gemm
                  Sample.odd_options "" "" "" "x" "y"
                  (mk_state "y" [Sample.W1; Sample.W2]
                            [Sample.B1; Sample.B2])
                  empty_world empty_world Sample.W1 [Sample.W2] 2 [3]
                  (fun w => eq_refl) (fun w => eq_refl) eq_refl
                  (conj eq_refl (conj (le_n_S 0 1 (le_0_n 1)) eq_refl))
                  eq_refl eq_refl)
           [0%float] [] [1%float; 2%float] []).
  reflexivity.
Defined.

Lemma take_transpose_result_witness :
  onnx2nnet "net.onnx" Sample.two_matmul no_options "" "" "" true empty_world
  = (Ok tt,
     mk_world
       (stdout empty_world ++
        [TakingTranspose; ConvertedModel "net.onnx";
         ToModel (default_nnetFile "net.onnx" "");
         ShowInputMins (repeat float32_min 3);
         ShowInputMaxes (repeat float32_max 3)])
       (written empty_world ++
        [mk_call (map transpose [Sample.W1; Sample.W2])
           [Sample.B1; Sample.B2]
           (repeat float32_min 3) (repeat float32_max 3)
           (repeat 0%float (3 + 1)) (repeat 1%float (3 + 1))
           (default_nnetFile "net.onnx" "")])).
Proof.
  apply (take_transpose_result "net.onnx" Sample.two_matmul "" "" "" "x" "y"
           (mk_state "y" [Sample.W1; Sample.W2] [Sample.B1; Sample.B2])
           empty_world empty_world Sample.W1 [Sample.W2] [2] 3).
  - intros w. reflexivity.
  - intros w. reflexivity.
  - reflexivity.
  - repeat split; simpl; lia.
  - reflexivity.
  - reflexivity.
Defined.

Lemma transpose_twice_witness :
  transpose (transpose Sample.W1) = Sample.W1.
Proof.
  apply (transpose_twice Sample.W1 2 3). split; reflexivity.
Defined.

Lemma writes_only_produced_output_witness :
  written
    (snd (onnx2nnet "net.onnx" Sample.two_gemm no_options "" "" "z" false
            empty_world)) = written empty_world.
Proof.
  apply (writes_only_produced_output "net.onnx" Sample.two_gemm no_options
           "" "" "z" false "x" "z" empty_world).
  - intros w. reflexivity.
  - intros w. reflexivity.
  - intros nd os [H|[H|[H|[]]]]; subst nd; discriminate.
Defined.
